(** * YX packet protocol layer: identifiers, authentication tags, packets

    A shallow embedding of the Python reference implementation
    ([yx/primitives/guid_factory.py], [yx/primitives/data_crypto.py],
    [yx/transport/packet.py], [yx/transport/packet_builder.py]) together
    with the fragments of the Python runtime and of the [cryptography]
    package that these modules call. *)

From Stdlib Require Import List ZArith NArith Lia Bool.
From Stdlib Require Import Strings.Ascii Strings.String Strings.Byte.
From Stdlib Require Import DecimalString.
Import ListNotations.

Local Open Scope list_scope.

(** ** The Python runtime *)

Module Py.

(** [bytes] objects are immutable sequences of octets. *)
Definition bytes : Type := list byte.

(** The exception classes that the modelled code can meet.  The two
    builtin ones carry their message; [AlreadyFinalized] belongs to
    [cryptography.exceptions]. *)
Inductive exn : Type :=
| ValueError (msg : string)
| TypeError (msg : string)
| AlreadyFinalized (msg : string).

(** Outcome of evaluating a Python expression: a value or a raised
    exception. *)
Inductive result (A : Type) : Type :=
| Ok (a : A)
| Raise (e : exn).
Arguments Ok {A} a.
Arguments Raise {A} e.

Definition bind {A B} (m : result A) (k : A -> result B) : result B :=
  match m with
  | Ok a => k a
  | Raise e => Raise e
  end.

(** [isinstance(e, (ValueError, TypeError))] *)
Definition is_ValueError_or_TypeError (e : exn) : bool :=
  match e with
  | ValueError _ | TypeError _ => true
  | AlreadyFinalized _ => false
  end.

(** [try: body  except (ValueError, TypeError): handler] *)
Definition try_except {A} (body : result A) (handler : result A) : result A :=
  match body with
  | Ok a => Ok a
  | Raise e => if is_ValueError_or_TypeError e then handler else Raise e
  end.

(** [str(n)] for a non-negative [int] given as a length. *)
Definition str_of_nat (n : nat) : string :=
  NilEmpty.string_of_uint (Nat.to_uint n).

(** [str(z)] for an arbitrary [int]. *)
Definition str_of_int (z : Z) : string :=
  NilEmpty.string_of_int (Z.to_int z).

(** Octets as numbers and back; [byte_of_Z] is the C cast to
    [unsigned char], i.e. reduction modulo 256. *)
Definition Z_of_byte (b : byte) : Z := Z.of_N (Byte.to_N b).

Definition byte_of_Z (z : Z) : byte :=
  byte_of_ascii (ascii_of_N (Z.to_N (z mod 256))).

(** [seq[i:j]] for constant bounds [0 <= i <= j]; Python clamps both
    bounds to the length of the sequence, as [skipn] and [firstn] do. *)
Definition slice {A} (l : list A) (i j : nat) : list A :=
  firstn (j - i) (skipn i l).

(** [seq[i:]] for a constant [0 <= i]. *)
Definition slice_from {A} (l : list A) (i : nat) : list A := skipn i l.

(** [seq[:stop]] for an arbitrary [int]: a negative [stop] counts from
    the end of the sequence and is clamped at 0. *)
Definition slice_to {A} (l : list A) (stop : Z) : list A :=
  if (stop <? 0)%Z
  then firstn (Z.to_nat (Z.max 0 (Z.of_nat (List.length l) + stop))) l
  else firstn (Z.to_nat stop) l.

(** *** [bytes.fromhex] and [bytes.hex] (CPython 3.7 and later) *)

(** [Py_ISSPACE]: the six ASCII whitespace characters. *)
Definition Py_ISSPACE (c : ascii) : bool :=
  let n := N_of_ascii c in
  (((9 <=? n) && (n <=? 13)) || (n =? 32))%N.

(** [_PyLong_DigitValue]: value of a character as a digit in bases up
    to 36, and 37 for every other character. *)
Definition PyLong_DigitValue (c : ascii) : N :=
  let n := N_of_ascii c in
  (if (48 <=? n) && (n <=? 57) then n - 48
   else if (97 <=? n) && (n <=? 122) then n - 97 + 10
   else if (65 <=? n) && (n <=? 90) then n - 65 + 10
   else 37)%N.

Definition fromhex_error (pos : nat) : exn :=
  ValueError
    ("non-hexadecimal number found in fromhex() arg at position "
       ++ str_of_nat pos)%string.

(** Position of the first character outside ASCII, if any. *)
Fixpoint find_non_ascii (pos : nat) (s : string) : option nat :=
  match s with
  | EmptyString => None
  | String c rest =>
      if (128 <=? N_of_ascii c)%N then Some pos
      else find_non_ascii (S pos) rest
  end.

(** The scanning loop of [_PyBytes_FromHex]: whitespace is skipped in
    front of a pair of digits, never inside one. *)
Fixpoint fromhex_scan (pos : nat) (s : string) : result bytes :=
  match s with
  | EmptyString => Ok []
  | String c rest =>
      if Py_ISSPACE c then fromhex_scan (S pos) rest
      else
        let top := PyLong_DigitValue c in
        if (16 <=? top)%N then Raise (fromhex_error pos)
        else
          match rest with
          | EmptyString => Raise (fromhex_error (S pos))
          | String d rest' =>
              let bot := PyLong_DigitValue d in
              if (16 <=? bot)%N then Raise (fromhex_error (S pos))
              else
                bind (fromhex_scan (S (S pos)) rest')
                     (fun tl =>
                        Ok (byte_of_Z (Z.of_N (N.shiftl top 4 + bot)) :: tl))
          end
  end.

Definition bytes_fromhex (s : string) : result bytes :=
  match find_non_ascii 0 s with
  | Some pos => Raise (fromhex_error pos)
  | None => fromhex_scan 0 s
  end.

(** [Py_hexdigits] *)
Definition Py_hexdigits : string := "0123456789abcdef".

Definition hexdigit (n : Z) : ascii :=
  match String.get (Z.to_nat n) Py_hexdigits with
  | Some c => c
  | None => "0"%char
  end.

(** [bytes.hex()]: two lower-case digits per octet, high nibble first. *)
Fixpoint bytes_hex (b : bytes) : string :=
  match b with
  | [] => EmptyString
  | x :: tl =>
      let c := Z_of_byte x in
      String (hexdigit (Z.shiftr c 4))
             (String (hexdigit (Z.land c 15)) (bytes_hex tl))
  end.

(** *** [hmac.compare_digest] on two [bytes] objects ([_tscmp]) *)

(** The accumulating loop: [result |= *left++ ^ *right++]. *)
Fixpoint tscmp_loop (left right : bytes) (acc : Z) : Z :=
  match left, right with
  | l :: left', r :: right' =>
      tscmp_loop left' right' (Z.lor acc (Z.lxor (Z_of_byte l) (Z_of_byte r)))
  | _, _ => acc
  end.

(** The loop always runs over the length of [b]; when the lengths
    differ, [b] is compared with itself and the accumulator starts
    at 1. *)
Definition compare_digest (a b : bytes) : bool :=
  if Nat.eqb (List.length a) (List.length b)
  then (tscmp_loop a b 0 =? 0)%Z
  else (tscmp_loop b b 1 =? 0)%Z.

End Py.

Import Py.

Declare Scope py_scope.
Delimit Scope py_scope with py.
Notation "x <- m ;; k" := (Py.bind m (fun x => k))
  (at level 61, m at next level, right associativity) : py_scope.
Notation "m ;;; k" := (Py.bind m (fun _ => k))
  (at level 61, right associativity) : py_scope.
Local Open Scope py_scope.

(** ** [cryptography.hazmat.primitives]: SHA-256 and HMAC

    The package is a binding to a native library; its two algorithms are
    embedded from their standards, FIPS 180-4 (SHA-256) and RFC 2104
    (HMAC), on 32-bit words held in [Z]. *)

Module hashes.

Local Open Scope Z_scope.

Definition mask32 : Z := 0xFFFFFFFF.

(** Reduction of a sum or a shifted word to 32 bits. *)
Definition wrap32 (x : Z) : Z := Z.land x mask32.

Definition add32 (x y : Z) : Z := wrap32 (x + y).

Definition rotr (x n : Z) : Z :=
  Z.lor (Z.shiftr x n) (wrap32 (Z.shiftl x (32 - n))).

Definition Ch (x y z : Z) : Z :=
  Z.lxor (Z.land x y) (Z.land (Z.lxor x mask32) z).

Definition Maj (x y z : Z) : Z :=
  Z.lxor (Z.lxor (Z.land x y) (Z.land x z)) (Z.land y z).

Definition bsig0 (x : Z) : Z :=
  Z.lxor (Z.lxor (rotr x 2) (rotr x 13)) (rotr x 22).

Definition bsig1 (x : Z) : Z :=
  Z.lxor (Z.lxor (rotr x 6) (rotr x 11)) (rotr x 25).

Definition ssig0 (x : Z) : Z :=
  Z.lxor (Z.lxor (rotr x 7) (rotr x 18)) (Z.shiftr x 3).

Definition ssig1 (x : Z) : Z :=
  Z.lxor (Z.lxor (rotr x 17) (rotr x 19)) (Z.shiftr x 10).

(** The sixty-four round constants. *)
Definition K : list Z :=
  [
    0x428A2F98; 0x71374491; 0xB5C0FBCF; 0xE9B5DBA5;
    0x3956C25B; 0x59F111F1; 0x923F82A4; 0xAB1C5ED5;
    0xD807AA98; 0x12835B01; 0x243185BE; 0x550C7DC3;
    0x72BE5D74; 0x80DEB1FE; 0x9BDC06A7; 0xC19BF174;
    0xE49B69C1; 0xEFBE4786; 0x0FC19DC6; 0x240CA1CC;
    0x2DE92C6F; 0x4A7484AA; 0x5CB0A9DC; 0x76F988DA;
    0x983E5152; 0xA831C66D; 0xB00327C8; 0xBF597FC7;
    0xC6E00BF3; 0xD5A79147; 0x06CA6351; 0x14292967;
    0x27B70A85; 0x2E1B2138; 0x4D2C6DFC; 0x53380D13;
    0x650A7354; 0x766A0ABB; 0x81C2C92E; 0x92722C85;
    0xA2BFE8A1; 0xA81A664B; 0xC24B8B70; 0xC76C51A3;
    0xD192E819; 0xD6990624; 0xF40E3585; 0x106AA070;
    0x19A4C116; 0x1E376C08; 0x2748774C; 0x34B0BCB5;
    0x391C0CB3; 0x4ED8AA4A; 0x5B9CCA4F; 0x682E6FF3;
    0x748F82EE; 0x78A5636F; 0x84C87814; 0x8CC70208;
    0x90BEFFFA; 0xA4506CEB; 0xBEF9A3F7; 0xC67178F2 ].

(** The eight working registers, also used for the chaining value. *)
Record regs : Type := mkRegs
  { ra : Z; rb : Z; rc : Z; rd : Z; re : Z; rf : Z; rg : Z; rh : Z }.

Definition IV : regs :=
  mkRegs 0x6A09E667 0xBB67AE85 0x3C6EF372 0xA54FF53A
         0x510E527F 0x9B05688C 0x1F83D9AB 0x5BE0CD19.

Definition round (s : regs) (kw : Z * Z) : regs :=
  let t1 :=
    add32 (add32 (add32 (add32 (rh s) (bsig1 (re s)))
                        (Ch (re s) (rf s) (rg s)))
                 (fst kw))
          (snd kw) in
  let t2 := add32 (bsig0 (ra s)) (Maj (ra s) (rb s) (rc s)) in
  mkRegs (add32 t1 t2) (ra s) (rb s) (rc s)
         (add32 (rd s) t1) (re s) (rf s) (rg s).

(** Big-endian words of a block. *)
Fixpoint words_of_bytes (l : bytes) : list Z :=
  match l with
  | b0 :: b1 :: b2 :: b3 :: tl =>
      Z.lor (Z.shiftl (Z_of_byte b0) 24)
            (Z.lor (Z.shiftl (Z_of_byte b1) 16)
                   (Z.lor (Z.shiftl (Z_of_byte b2) 8) (Z_of_byte b3)))
      :: words_of_bytes tl
  | _ => []
  end.

(** Message schedule: [n] further words appended to [W]. *)
Fixpoint extend (n : nat) (W : list Z) : list Z :=
  match n with
  | O => W
  | S n' =>
      let t := List.length W in
      let wt :=
        add32 (add32 (add32 (ssig1 (nth (t - 2) W 0)) (nth (t - 7) W 0))
                     (ssig0 (nth (t - 15) W 0)))
              (nth (t - 16) W 0) in
      extend n' (W ++ [wt])
  end.

Definition schedule (block : bytes) : list Z :=
  extend 48 (words_of_bytes block).

Definition compress (H : regs) (block : bytes) : regs :=
  let s := fold_left round (combine K (schedule block)) H in
  mkRegs (add32 (ra H) (ra s)) (add32 (rb H) (rb s))
         (add32 (rc H) (rc s)) (add32 (rd H) (rd s))
         (add32 (re H) (re s)) (add32 (rf H) (rf s))
         (add32 (rg H) (rg s)) (add32 (rh H) (rh s)).

Definition word_bytes (x : Z) : bytes :=
  [ byte_of_Z (Z.shiftr x 24); byte_of_Z (Z.shiftr x 16);
    byte_of_Z (Z.shiftr x 8); byte_of_Z x ].

(** Padding: a single one bit, zeros up to 56 modulo 64 octets, and the
    bit length of the message as a 64-bit big-endian number. *)
Definition pad_message (msg : bytes) : bytes :=
  let l := Z.of_nat (List.length msg) in
  msg ++ [x80] ++ repeat x00 (Z.to_nat ((55 - l) mod 64))
      ++ word_bytes (Z.shiftr (8 * l) 32) ++ word_bytes (8 * l).

Fixpoint blocks (n : nat) (l : bytes) : list bytes :=
  match n with
  | O => []
  | S n' => firstn 64 l :: blocks n' (skipn 64 l)
  end.

Definition digest_of (s : regs) : bytes :=
  word_bytes (ra s) ++ word_bytes (rb s) ++ word_bytes (rc s)
    ++ word_bytes (rd s) ++ word_bytes (re s) ++ word_bytes (rf s)
    ++ word_bytes (rg s) ++ word_bytes (rh s).

Definition sha256 (msg : bytes) : bytes :=
  let padded := pad_message msg in
  digest_of
    (fold_left compress (blocks (List.length padded / 64) padded) IV).

Definition xor_byte (c : Z) (b : byte) : byte :=
  byte_of_Z (Z.lxor (Z_of_byte b) c).

(** RFC 2104 with block size 64: a key longer than a block is hashed
    first, a shorter one is filled with zeros. *)
Definition hmac_sha256 (key msg : bytes) : bytes :=
  let k0 := if Nat.ltb 64 (List.length key) then sha256 key else key in
  let k := k0 ++ repeat x00 (64 - List.length k0) in
  sha256 (map (xor_byte 0x5C) k ++ sha256 (map (xor_byte 0x36) k ++ msg)).

(** *** The [hmac.HMAC] context object

    [HMAC(key, hashes.SHA256())] creates a context, [update] feeds it
    and [finalize] returns the digest once; both raise
    [AlreadyFinalized] on a finalized context.  The object is mutated
    in place in Python and threaded explicitly here. *)
Record HMAC : Type := mkHMAC
  { ctx_key : bytes; ctx_data : bytes; ctx_finalized : bool }.

Definition HMAC_new (key : bytes) : HMAC := mkHMAC key [] false.

Definition already_finalized : exn :=
  AlreadyFinalized "Context was already finalized.".

Definition update (h : HMAC) (data : bytes) : result HMAC :=
  if ctx_finalized h then Raise already_finalized
  else Ok (mkHMAC (ctx_key h) (ctx_data h ++ data) false).

Definition finalize (h : HMAC) : result (bytes * HMAC) :=
  if ctx_finalized h then Raise already_finalized
  else Ok (hmac_sha256 (ctx_key h) (ctx_data h),
           mkHMAC (ctx_key h) (ctx_data h) true).

End hashes.

Arguments hashes.sha256 : simpl never.
Arguments hashes.hmac_sha256 : simpl never.

(** ** [yx/primitives/guid_factory.py] *)

Module guid_factory.

(** [GUIDFactory.pad_guid] *)
Definition pad_guid (guid : bytes) : bytes :=
  if Nat.eqb (List.length guid) 6 then guid
  else if Nat.ltb (List.length guid) 6 then guid ++ repeat x00 (6 - List.length guid)
  else firstn 6 guid.

(** [GUIDFactory.from_hex] *)
Definition from_hex (hex_string : string) : result bytes :=
  guid_bytes <- bytes_fromhex hex_string ;;
  Ok (pad_guid guid_bytes).

(** [GUIDFactory.to_hex] *)
Definition to_hex (guid : bytes) : string := bytes_hex guid.

End guid_factory.


(** ** Hexadecimal text

    The vocabulary in which the behaviour of the hex codec is stated:
    character classes, the shape of the strings that [bytes.fromhex]
    accepts, and the text that an accepted string stands for. *)

Module hex_text.

Definition char_in (set : string) (c : ascii) : bool :=
  existsb (Ascii.eqb c) (list_ascii_of_string set).

Definition is_hex_digit : ascii -> bool := char_in "0123456789abcdefABCDEF".

Definition is_lower_hex_digit : ascii -> bool := char_in "0123456789abcdef".

(** Space, tab, line feed, vertical tab, form feed, carriage return. *)
Definition is_whitespace (c : ascii) : bool :=
  existsb (Ascii.eqb c) [" "; "009"; "010"; "011"; "012"; "013"]%char.

Fixpoint all_chars (P : ascii -> bool) (s : string) : bool :=
  match s with
  | EmptyString => true
  | String c rest => P c && all_chars P rest
  end.

Definition no_whitespace : string -> bool :=
  all_chars (fun c => negb (is_whitespace c)).

(** [str.lower] on one character of the Latin alphabet. *)
Definition lower (c : ascii) : ascii :=
  let n := N_of_ascii c in
  if ((65 <=? n) && (n <=? 90))%N then ascii_of_N (n + 32) else c.

(** A string with its whitespace removed and its letters lowered. *)
Fixpoint normalized (s : string) : string :=
  match s with
  | EmptyString => EmptyString
  | String c rest =>
      if is_whitespace c then normalized rest
      else String (lower c) (normalized rest)
  end.

(** Pairs of hex digits, with whitespace allowed in front of a pair
    and at the end, but not inside a pair. *)
Inductive hex_pairs : string -> Prop :=
| hex_pairs_end : hex_pairs EmptyString
| hex_pairs_space (c : ascii) (s : string) :
    is_whitespace c = true -> hex_pairs s -> hex_pairs (String c s)
| hex_pairs_pair (c d : ascii) (s : string) :
    is_hex_digit c = true -> is_hex_digit d = true -> hex_pairs s ->
    hex_pairs (String c (String d s)).

End hex_text.

(** ** [yx/primitives/data_crypto.py] *)

Module data_crypto.

(** The messages of the three [ValueError]s raised in this module. *)
Definition key_length_error (key : bytes) : exn :=
  ValueError ("Key must be 32 bytes, got "
                ++ str_of_nat (List.length key))%string.

Definition tag_length_error (truncate_to : Z) : exn :=
  ValueError ("Cannot truncate to more than 32 bytes, got "
                ++ str_of_int truncate_to)%string.

Definition guid_length_error (guid : bytes) : exn :=
  ValueError ("GUID must be 6 bytes, got "
                ++ str_of_nat (List.length guid))%string.

(** [compute_hmac(data, key, truncate_to=16)] *)
Definition compute_hmac (data key : bytes) (truncate_to : Z) : result bytes :=
  if negb (Nat.eqb (List.length key) 32) then
    Raise (key_length_error key)
  else if (32 <? truncate_to)%Z then
    Raise (tag_length_error truncate_to)
  else
    let h := hashes.HMAC_new key in
    h <- hashes.update h data ;;
    mac <- hashes.finalize h ;;
    Ok (slice_to (fst mac) truncate_to).

(** [validate_hmac_constant_time(data, key, expected_hmac, truncate_to=16)] *)
Definition validate_hmac_constant_time
    (data key expected_hmac : bytes) (truncate_to : Z) : result bool :=
  try_except
    (computed_hmac <- compute_hmac data key truncate_to ;;
     Ok (compare_digest computed_hmac expected_hmac))
    (Ok false).

(** [compute_packet_hmac(guid, payload, key)] *)
Definition compute_packet_hmac (guid payload key : bytes) : result bytes :=
  if negb (Nat.eqb (List.length guid) 6) then
    Raise (guid_length_error guid)
  else
    let hmac_input := guid ++ payload in
    compute_hmac hmac_input key 16.

(** [validate_packet_hmac(guid, payload, key, expected_hmac)] *)
Definition validate_packet_hmac
    (guid payload key expected_hmac : bytes) : result bool :=
  try_except
    (computed_hmac <- compute_packet_hmac guid payload key ;;
     Ok (compare_digest computed_hmac expected_hmac))
    (Ok false).

End data_crypto.

(** ** [yx/transport/packet.py] *)

Module packet.

(** The dataclass: three attributes, all [bytes].  The [isinstance]
    guards of [__post_init__] hold by the typing of the fields. *)
Record Packet : Type := mkPacket
  { hmac : bytes; guid : bytes; payload : bytes }.

(** [Packet.__post_init__] *)
Definition post_init (self : Packet) : result unit :=
  if negb (Nat.eqb (List.length (hmac self)) 16) then
    Raise (ValueError ("hmac must be 16 bytes, got "
                         ++ str_of_nat (List.length (hmac self)))%string)
  else if negb (Nat.eqb (List.length (guid self)) 6) then
    Raise (ValueError ("guid must be 6 bytes, got "
                         ++ str_of_nat (List.length (guid self)))%string)
  else Ok tt.

(** [Packet(hmac=..., guid=..., payload=...)]: the generated
    [__init__] stores the attributes and calls [__post_init__]. *)
Definition new (hmac0 guid0 payload0 : bytes) : result Packet :=
  let self := mkPacket hmac0 guid0 payload0 in
  post_init self ;;; Ok self.

(** [Packet.to_bytes] *)
Definition to_bytes (self : Packet) : bytes :=
  hmac self ++ guid self ++ payload self.

(** [Packet.from_bytes] *)
Definition from_bytes (data : bytes) : result (option Packet) :=
  if Nat.ltb (List.length data) 22 then Ok None
  else
    try_except
      (let hmac0 := slice data 0 16 in
       let guid0 := slice data 16 22 in
       let payload0 := slice_from data 22 in
       p <- new hmac0 guid0 payload0 ;;
       Ok (Some p))
      (Ok None).

(** [Packet.__len__] *)
Definition len (self : Packet) : nat :=
  16 + 6 + List.length (payload self).

(** [Packet.__repr__] *)
Definition repr (self : Packet) : string :=
  ("Packet(hmac=" ++ String.substring 0 8 (bytes_hex (hmac self)) ++ "..., "
     ++ "guid=" ++ bytes_hex (guid self) ++ ", "
     ++ "payload=" ++ str_of_nat (List.length (payload self)) ++ "B)")%string.

(** Well-formedness is a matter of field widths only. *)
Definition well_formed (p : Packet) : Prop :=
  List.length (hmac p) = 16 /\ List.length (guid p) = 6.

(** *** Attributes of an instance

    The class is declared with [@dataclass] and is not frozen: every
    attribute of an instance can be read and can be assigned, and an
    assignment runs no check ([__post_init__] runs from [__init__]
    only). *)

Inductive attribute : Type :=
| attr_hmac
| attr_guid
| attr_payload.

(** [self.a] *)
Definition getattr (self : Packet) (a : attribute) : bytes :=
  match a with
  | attr_hmac => hmac self
  | attr_guid => guid self
  | attr_payload => payload self
  end.

(** [self.a = v] *)
Definition setattr (self : Packet) (a : attribute) (v : bytes) : Packet :=
  match a with
  | attr_hmac => mkPacket v (guid self) (payload self)
  | attr_guid => mkPacket (hmac self) v (payload self)
  | attr_payload => mkPacket (hmac self) (guid self) v
  end.

(** A method body as a computation over the attributes of [self]: it
    returns or raises, and leaves the attributes in some state. *)
Definition body (A : Type) : Type := Packet -> result A * Packet.

Definition body_ret {A} (a : A) : body A := fun self => (Ok a, self).

Definition body_raise {A} (e : exn) : body A := fun self => (Raise e, self).

Definition body_bind {A B} (m : body A) (k : A -> body B) : body B :=
  fun self =>
    match m self with
    | (Ok a, self') => k a self'
    | (Raise e, self') => (Raise e, self')
    end.

(** A call that takes no instance. *)
Definition body_call {A} (r : result A) : body A := fun self => (r, self).

Definition read (a : attribute) : body bytes :=
  fun self => (Ok (getattr self a), self).

Definition assign (a : attribute) (v : bytes) : body unit :=
  fun self => (Ok tt, setattr self a v).

Declare Scope body_scope.
Delimit Scope body_scope with body.
Notation "x <- m ;; k" := (body_bind m (fun x => k))
  (at level 61, m at next level, right associativity) : body_scope.

(** The instance methods, statement by statement. *)

(** [Packet.__post_init__] *)
Definition post_init_body : body unit :=
  (h <- read attr_hmac ;;
   if negb (Nat.eqb (List.length h) 16) then
     h' <- read attr_hmac ;;
     body_raise (ValueError ("hmac must be 16 bytes, got "
                               ++ str_of_nat (List.length h'))%string)
   else
     g <- read attr_guid ;;
     if negb (Nat.eqb (List.length g) 6) then
       g' <- read attr_guid ;;
       body_raise (ValueError ("guid must be 6 bytes, got "
                                 ++ str_of_nat (List.length g'))%string)
     else body_ret tt)%body.

(** [Packet.to_bytes] *)
Definition to_bytes_body : body bytes :=
  (h <- read attr_hmac ;;
   g <- read attr_guid ;;
   p <- read attr_payload ;;
   body_ret (h ++ g ++ p))%body.

(** [Packet.__len__] *)
Definition len_body : body nat :=
  (p <- read attr_payload ;;
   body_ret (16 + 6 + List.length p))%body.

(** [Packet.__repr__] *)
Definition repr_body : body string :=
  (h <- read attr_hmac ;;
   g <- read attr_guid ;;
   p <- read attr_payload ;;
   body_ret ("Packet(hmac=" ++ String.substring 0 8 (bytes_hex h) ++ "..., "
               ++ "guid=" ++ bytes_hex g ++ ", "
               ++ "payload=" ++ str_of_nat (List.length p) ++ "B)")%string)%body.

End packet.

(** ** [yx/transport/packet_builder.py] *)

Module packet_builder.

Import packet.

(** [PacketBuilder.build_packet] *)
Definition build_packet (guid payload key : bytes) : result Packet :=
  let padded_guid := guid_factory.pad_guid guid in
  hmac_value <- data_crypto.compute_packet_hmac padded_guid payload key ;;
  packet.new hmac_value padded_guid payload.

(** [PacketBuilder.build_and_serialize] *)
Definition build_and_serialize (guid payload key : bytes) : result bytes :=
  packet <- build_packet guid payload key ;;
  Ok (to_bytes packet).

(** [PacketBuilder.parse_packet] *)
Definition parse_packet (data : bytes) : result (option Packet) :=
  from_bytes data.

(** [PacketBuilder.validate_hmac] *)
Definition validate_hmac (packet : Packet) (key : bytes) : result bool :=
  data_crypto.validate_packet_hmac
    (packet.guid packet) (packet.payload packet) key (packet.hmac packet).

(** [PacketBuilder.parse_and_validate] *)
Definition parse_and_validate (data key : bytes) : result (option Packet) :=
  packet <- parse_packet data ;;
  match packet with
  | None => Ok None
  | Some packet =>
      valid <- validate_hmac packet key ;;
      if negb valid then Ok None else Ok (Some packet)
  end.

(** [PacketBuilder.validate_hmac] as a computation over the attributes
    of the packet it is given. *)
Definition validate_hmac_body (key : bytes) : body bool :=
  (g <- read attr_guid ;;
   p <- read attr_payload ;;
   h <- read attr_hmac ;;
   body_call (data_crypto.validate_packet_hmac g p key h))%body.

End packet_builder.

(** ** [yx/transport/udp_socket.py]

    The class talks to the operating system through Python's [socket]
    module.  Each method is embedded as a tree of calls into that module:
    a node is one call, with one subtree for every outcome of the call (a
    value or a raised exception), and a leaf is the outcome of the method
    together with the attributes of [self] at that point.  The methods
    have no loops, so the trees are finite. *)

Module udp_socket.

Import packet packet_builder.

(** A [(host, port)] pair. *)
Definition address : Type := string * Z.

(** The identity of a socket object made by [socket.socket]. *)
Definition socket_id : Type := nat.

Inductive sockopt : Type :=
| SO_REUSEADDR
| SO_REUSEPORT
| SO_BROADCAST.

(** Exceptions at this layer: those of the packet layer, and the
    builtin classes that the [socket] module and this class raise. *)
Inductive exn : Type :=
| Builtin (e : Py.exn)
| RuntimeError (msg : string)
| AttributeError (msg : string)
| OSError (msg : string)
| OverflowError (msg : string).

Inductive outcome (A : Type) : Type :=
| Returns (a : A)
| Raises (e : exn).
Arguments Returns {A} a.
Arguments Raises {A} e.

(** The calls into the [socket] module, indexed by what they return. *)
Inductive call : Type -> Type :=
| new_socket : call socket_id
| setsockopt (s : socket_id) (opt : sockopt) (value : Z) : call unit
| bind_to (s : socket_id) (a : address) : call unit
| close_sock (s : socket_id) : call unit
| sendto (s : socket_id) (data : bytes) (a : address) : call Z
| recvfrom (s : socket_id) (bufsize : Z) : call (bytes * address).

Inductive io (A : Type) : Type :=
| Done (a : A)
| Call (R : Type) (c : call R) (k : outcome R -> io A).
Arguments Done {A} a.
Arguments Call {A} R c k.

Fixpoint io_bind {A B : Type} (t : io A) (k : A -> io B) : io B :=
  match t with
  | Done a => k a
  | Call R c h => Call R c (fun r => io_bind (h r) k)
  end.

(** The object: [self.port] and [self.socket] ([None] or a socket). *)
Record UDPSocket : Type := mkUDPSocket
  { port : Z; socket : option socket_id }.

(** A method body: from the attributes of [self] to a tree whose leaves
    hold the outcome and the attributes of [self] at the end. *)
Definition method (A : Type) : Type :=
  UDPSocket -> io (outcome A * UDPSocket).

Definition ret {A} (a : A) : method A :=
  fun self => Done (Returns a, self).

Definition raise {A} (e : exn) : method A :=
  fun self => Done (Raises e, self).

(** Sequencing: an exception ends the body, keeping the attributes as
    they are at that point. *)
Definition seq {A B} (m : method A) (k : A -> method B) : method B :=
  fun self =>
    io_bind (m self)
            (fun rs =>
               match fst rs with
               | Returns a => k a (snd rs)
               | Raises e => Done (Raises e, snd rs)
               end).

Definition perform {R} (c : call R) : method R :=
  fun self => Call R c (fun r => Done (r, self)).

Definition get_socket : method (option socket_id) :=
  fun self => Done (Returns (socket self), self).

Definition set_socket (v : option socket_id) : method unit :=
  fun self => Done (Returns tt, mkUDPSocket (port self) v).

Definition get_port : method Z :=
  fun self => Done (Returns (port self), self).

(** [try: body  except AttributeError: handler] *)
Definition except_AttributeError {A} (body handler : method A) : method A :=
  fun self =>
    io_bind (body self)
            (fun rs =>
               match fst rs with
               | Raises (AttributeError _) => handler (snd rs)
               | _ => Done rs
               end).

(** A call into the packet layer, which performs no call of its own. *)
Definition lift {A} (r : Py.result A) : method A :=
  match r with
  | Ok a => ret a
  | Raise e => raise (Builtin e)
  end.

Declare Scope io_scope.
Notation "x <- m ;; k" := (seq m (fun x => k))
  (at level 61, m at next level, right associativity) : io_scope.
Notation "m ;;; k" := (seq m (fun _ => k))
  (at level 61, right associativity) : io_scope.
Local Open Scope io_scope.

(** [UDPSocket.__init__] *)
Definition init (port0 : Z) : UDPSocket := mkUDPSocket port0 None.

Definition default_port : Z := 50000.
Definition default_host : string := "255.255.255.255".
Definition default_buffer_size : Z := 65507.

(** Evaluating [socket.SO_REUSEPORT] raises [AttributeError] where the
    platform does not define the constant. *)
Definition no_SO_REUSEPORT : exn :=
  AttributeError "module 'socket' has no attribute 'SO_REUSEPORT'".

(** Attribute access on [self.socket] when it is [None]. *)
Definition none_has_no (attr : string) : exn :=
  AttributeError ("'NoneType' object has no attribute '" ++ attr ++ "'")%string.

(** [UDPSocket.create_socket], on a platform that defines
    [SO_REUSEPORT] or not. *)
Definition create_socket (has_reuseport : bool) : method socket_id :=
  sock <- perform new_socket ;;
  perform (setsockopt sock SO_REUSEADDR 1) ;;;
  except_AttributeError
    (if has_reuseport then perform (setsockopt sock SO_REUSEPORT 1)
     else raise no_SO_REUSEPORT)
    (ret tt) ;;;
  perform (setsockopt sock SO_BROADCAST 1) ;;;
  set_socket (Some sock) ;;;
  ret sock.

(** [if self.socket is None: self.create_socket()] *)
Definition ensure_socket (has_reuseport : bool) : method unit :=
  s <- get_socket ;;
  match s with
  | None => create_socket has_reuseport ;;; ret tt
  | Some _ => ret tt
  end.

(** [UDPSocket.bind] *)
Definition bind (has_reuseport : bool) : method unit :=
  ensure_socket has_reuseport ;;;
  s <- get_socket ;;
  p <- get_port ;;
  match s with
  | Some sk => perform (bind_to sk ("0.0.0.0"%string, p))
  | None => raise (none_has_no "bind")
  end.

(** [UDPSocket.close]; a socket object is true in a condition. *)
Definition close : method unit :=
  s <- get_socket ;;
  match s with
  | Some sk => perform (close_sock sk) ;;; set_socket None
  | None => ret tt
  end.

(** [UDPSocket.send_packet] *)
Definition send_packet (has_reuseport : bool)
    (guid payload key : bytes) (host : string) (port0 : Z) : method unit :=
  ensure_socket has_reuseport ;;;
  data <- lift (build_and_serialize guid payload key) ;;
  s <- get_socket ;;
  match s with
  | Some sk => perform (sendto sk data (host, port0)) ;;; ret tt
  | None => raise (none_has_no "sendto")
  end.

(** [UDPSocket.receive_packet] *)
Definition receive_packet (key : bytes) (buffer_size : Z)
  : method (bytes * bytes * address) :=
  s <- get_socket ;;
  match s with
  | None => raise (RuntimeError "Socket not created")
  | Some sk =>
      received <- perform (recvfrom sk buffer_size) ;;
      packet <- lift (parse_and_validate (fst received) key) ;;
      match packet with
      | None => raise (Builtin (ValueError "Invalid packet received"))
      | Some pk => ret (guid pk, payload pk, snd received)
      end
  end.

(** *** Running a method against an operating system

    The operating system is any function from a call and the calls made
    so far to an outcome; a run records the calls with their outcomes. *)

Inductive event : Type :=
| Event (R : Type) (c : call R) (r : outcome R).

Definition system : Type := forall R : Type, call R -> list event -> outcome R.

Fixpoint exec {A : Type} (os : system) (t : io A) (log : list event)
  : A * list event :=
  match t with
  | Done a => (a, log)
  | Call R c k =>
      let r := os R c log in
      exec os (k r) (log ++ [Event R c r])
  end.

(** A run of a method from an empty log: outcome, attributes of [self]
    at the end, and the calls made. *)
Definition run {A} (os : system) (m : method A) (self : UDPSocket)
  : outcome A * UDPSocket * list event :=
  exec os (m self) [].

Definition result_of {A} (x : outcome A * UDPSocket * list event) : outcome A :=
  fst (fst x).

Definition self_after {A} (x : outcome A * UDPSocket * list event) : UDPSocket :=
  snd (fst x).

Definition calls_of {A} (x : outcome A * UDPSocket * list event) : list event :=
  snd x.

(** The datagrams handed to [sendto], with their destinations. *)
Definition sent_datagram (e : event) : list (bytes * address) :=
  match e with
  | Event _ c _ =>
      match c with
      | sendto _ data a => [(data, a)]
      | _ => []
      end
  end.

Definition sent_datagrams (log : list event) : list (bytes * address) :=
  flat_map sent_datagram log.

(** The addresses passed to [bind]. *)
Definition bound_address (e : event) : list address :=
  match e with
  | Event _ c _ =>
      match c with
      | bind_to _ a => [a]
      | _ => []
      end
  end.

Definition bound_addresses (log : list event) : list address :=
  flat_map bound_address log.

(** The sockets passed to [close]. *)
Definition closed_socket (e : event) : list socket_id :=
  match e with
  | Event _ c _ =>
      match c with
      | close_sock s => [s]
      | _ => []
      end
  end.

Definition closed_sockets (log : list event) : list socket_id :=
  flat_map closed_socket log.






(** A system on which every call succeeds and [recvfrom] delivers one
    given datagram from one given address; used to run the methods on
    concrete inputs. *)
Definition delivering (data : bytes) (a : address) : system :=
  fun R c log =>
    match c in call R return outcome R with
    | new_socket => Returns (List.length log)
    | setsockopt _ _ _ => Returns tt
    | bind_to _ _ => Returns tt
    | close_sock _ => Returns tt
    | sendto _ d _ => Returns (Z.of_nat (List.length d))
    | recvfrom _ _ => Returns (data, a)
    end.

End udp_socket.

(** ** Authenticity

    A packet is authentic under a key when its identifier has 6 bytes,
    the key has 32 bytes and its mac is the first 16 bytes of the
    HMAC-SHA256 digest of identifier and payload under the key. *)

Module authenticity.

Import packet.

Definition authentic (pk : Packet) (key : bytes) : Prop :=
  List.length (guid pk) = 6
  /\ List.length key = 32
  /\ hmac pk = firstn 16 (hashes.hmac_sha256 key (guid pk ++ payload pk)).

End authenticity.

(** ** Test data *)

(** The octets of an ASCII literal, as in [b'test payload']. *)
Definition ascii_bytes (s : string) : bytes :=
  List.map byte_of_ascii (list_ascii_of_string s).

(** The datagram of the loopback test: key of 32 zero bytes, identifier
    of six [0x01] bytes, payload [b'test payload']. *)
Definition loopback_wire : bytes :=
  firstn 16 (hashes.hmac_sha256
               (repeat x00 32) (repeat x01 6 ++ ascii_bytes "test payload"))
    ++ repeat x01 6 ++ ascii_bytes "test payload".

(** ** Known answers

    Runs of the embedded runtime on the published vectors of SHA-256 and
    HMAC-SHA256 (RFC 4231) and on the cases of the unit tests. *)

Section KnownAnswers.

Import guid_factory packet packet_builder.

Example sha256_empty :
  bytes_hex (hashes.sha256 [])
  = "e3b0c44298fc1c149afbf4c8996fb92427ae41e4649b934ca495991b7852b855"%string.
Proof. vm_compute. reflexivity. Qed.

Example sha256_abc :
  bytes_hex (hashes.sha256 (ascii_bytes "abc"))
  = "ba7816bf8f01cfea414140de5dae2223b00361a396177a9cb410ff61f20015ad"%string.
Proof. vm_compute. reflexivity. Qed.

Example sha256_two_blocks :
  bytes_hex (hashes.sha256 (repeat x61 56))
  = "b35439a4ac6f0948b6d6f9e3c6af0f5f590ce20f1bde7090ef7970686ec6738a"%string.
Proof. vm_compute. reflexivity. Qed.

Example sha256_119_octets :
  bytes_hex (hashes.sha256 (repeat x61 119))
  = "31eba51c313a5c08226adf18d4a359cfdfd8d2e816b13f4af952f7ea6584dcfb"%string.
Proof. vm_compute. reflexivity. Qed.

Example hmac_rfc4231_case_1 :
  bytes_hex (hashes.hmac_sha256 (repeat x0b 20) (ascii_bytes "Hi There"))
  = "b0344c61d8db38535ca8afceaf0bf12b881dc200c9833da726e9376c2e32cff7"%string.
Proof. vm_compute. reflexivity. Qed.

Example hmac_rfc4231_case_6 :
  bytes_hex
    (hashes.hmac_sha256
       (repeat xaa 131)
       (ascii_bytes "Test Using Larger Than Block-Size Key - Hash Key First"))
  = "60e431591ee0b67f0d8a26aacbf5b77f8e0bc6213728c5140546040f0ee37f54"%string.
Proof. vm_compute. reflexivity. Qed.

Example canonical_packet :
  build_and_serialize (repeat x01 6) (ascii_bytes "test payload") (repeat x00 32)
  = bytes_fromhex
      "5f18f29d5020867e0192815d7f90d5aa01010101010174657374207061796c6f6164".
Proof. vm_compute. reflexivity. Qed.

Example short_guid_packet :
  build_and_serialize [xaa; xbb] [] (repeat x00 32)
  = bytes_fromhex "66eb705ac7d735b2f0bbf4013aad621faabb00000000".
Proof. vm_compute. reflexivity. Qed.

Example fromhex_spaces : bytes_fromhex "01 02" = Ok [x01; x02].
Proof. reflexivity. Qed.

Example fromhex_split_pair : bytes_fromhex "0 1" = Raise (fromhex_error 1).
Proof. reflexivity. Qed.

Example fromhex_upper : bytes_fromhex "AbCd" = Ok [xab; xcd].
Proof. reflexivity. Qed.

Example fromhex_odd : bytes_fromhex "012" = Raise (fromhex_error 3).
Proof. reflexivity. Qed.

Example fromhex_error_text :
  bytes_fromhex "0g"
  = Raise (ValueError
             "non-hexadecimal number found in fromhex() arg at position 1").
Proof. reflexivity. Qed.

Example hex_print : bytes_hex [xab; x0d; x00] = "ab0d00"%string.
Proof. reflexivity. Qed.

Example repr_text :
  repr (mkPacket (repeat xaa 16) (repeat xbb 6) (ascii_bytes "test"))
  = "Packet(hmac=aaaaaaaa..., guid=bbbbbbbbbbbb, payload=4B)"%string.
Proof. reflexivity. Qed.

Example slice_negative : slice_to [x01; x02; x03] (-1) = [x01; x02].
Proof. reflexivity. Qed.

End KnownAnswers.

(** ** Facts about the runtime model *)

Section RuntimeFacts.

Lemma Z_of_byte_inj (a b : byte) : Z_of_byte a = Z_of_byte b -> a = b.
Proof.
  unfold Z_of_byte. intros H. apply N2Z.inj in H.
  assert (E : Byte.of_N (Byte.to_N a) = Byte.of_N (Byte.to_N b)) by now rewrite H.
  rewrite !Byte.of_to_N in E. now injection E.
Qed.

(** A non-zero accumulator stays non-zero through the comparison loop. *)
Lemma tscmp_loop_nonzero (l r : bytes) (acc : Z) :
  acc <> 0%Z -> tscmp_loop l r acc <> 0%Z.
Proof.
  revert r acc. induction l as [|x l IH]; intros [|y r] acc Hacc; simpl; auto.
  apply IH. rewrite Z.lor_eq_0_iff. tauto.
Qed.

Lemma tscmp_loop_zero (l r : bytes) (acc : Z) :
  List.length l = List.length r ->
  (tscmp_loop l r acc = 0%Z <-> acc = 0%Z /\ l = r).
Proof.
  revert r acc. induction l as [|x l IH]; intros [|y r] acc Hlen;
    simpl in *; try discriminate.
  - tauto.
  - injection Hlen as Hlen. rewrite (IH _ _ Hlen), Z.lor_eq_0_iff, Z.lxor_eq_0_iff.
    split.
    + intros [[Ha Hxy] Hlr]. apply Z_of_byte_inj in Hxy. now subst.
    + intros [Ha Heq]. injection Heq as -> ->. auto.
Qed.

(** [compare_digest] decides equality of byte strings. *)
Lemma compare_digest_true_iff (a b : bytes) :
  compare_digest a b = true <-> a = b.
Proof.
  unfold compare_digest.
  destruct (Nat.eqb (List.length a) (List.length b)) eqn:Hlen.
  - apply Nat.eqb_eq in Hlen. rewrite Z.eqb_eq, (tscmp_loop_zero _ _ _ Hlen).
    tauto.
  - apply Nat.eqb_neq in Hlen. split.
    + rewrite Z.eqb_eq. intros H. exfalso.
      now apply (tscmp_loop_nonzero b b 1%Z).
    + intros ->. now elim Hlen.
Qed.

Lemma compare_digest_refl (a : bytes) : compare_digest a a = true.
Proof. now apply compare_digest_true_iff. Qed.

Lemma slice_to_nonneg {A} (l : list A) (stop : Z) :
  (0 <= stop)%Z -> slice_to l stop = firstn (Z.to_nat stop) l.
Proof.
  intros H. unfold slice_to.
  destruct (Z.ltb_spec stop 0); [lia | reflexivity].
Qed.

Lemma firstn_app_exact {A} (n : nat) (l r : list A) :
  List.length l = n -> firstn n (l ++ r) = l.
Proof.
  intros <-. rewrite firstn_app, Nat.sub_diag, firstn_all. apply app_nil_r.
Qed.

Lemma skipn_app_exact {A} (n : nat) (l r : list A) :
  List.length l = n -> skipn n (l ++ r) = r.
Proof.
  intros <-. rewrite skipn_app, Nat.sub_diag, skipn_all. reflexivity.
Qed.

(** Slices of a concatenation whose first two parts have the widths of
    the wire format. *)
Lemma slice_mac {A} (m g p : list A) :
  List.length m = 16 -> slice (m ++ g ++ p) 0 16 = m.
Proof.
  intros Hm. unfold slice. change (16 - 0) with 16.
  change (skipn 0 (m ++ g ++ p)) with (m ++ g ++ p).
  now apply firstn_app_exact.
Qed.

Lemma slice_guid {A} (m g p : list A) :
  List.length m = 16 -> List.length g = 6 -> slice (m ++ g ++ p) 16 22 = g.
Proof.
  intros Hm Hg. unfold slice. change (22 - 16) with 6.
  rewrite (skipn_app_exact 16 m) by assumption.
  now apply firstn_app_exact.
Qed.

Lemma slice_payload {A} (m g p : list A) :
  List.length m = 16 -> List.length g = 6 -> slice_from (m ++ g ++ p) 22 = p.
Proof.
  intros Hm Hg. unfold slice_from. rewrite app_assoc.
  apply skipn_app_exact. rewrite length_app. lia.
Qed.

(** The three slices taken by the parser partition the input. *)
Lemma slices_partition {A} (data : list A) :
  slice data 0 16 ++ slice data 16 22 ++ slice_from data 22 = data.
Proof.
  unfold slice, slice_from.
  change (16 - 0) with 16. change (22 - 16) with 6.
  change (skipn 0 data) with data.
  replace (skipn 22 data) with (skipn 6 (skipn 16 data))
    by (rewrite skipn_skipn; reflexivity).
  rewrite (firstn_skipn 6 (skipn 16 data)).
  apply firstn_skipn.
Qed.

Lemma slice_lengths {A} (data : list A) :
  22 <= List.length data ->
  List.length (slice data 0 16) = 16 /\ List.length (slice data 16 22) = 6.
Proof.
  intros H. unfold slice. simpl skipn at 1.
  rewrite !length_firstn, length_skipn. lia.
Qed.

End RuntimeFacts.

(** ** Facts about the hash functions *)

Section HashFacts.

Lemma sha256_length (msg : bytes) : List.length (hashes.sha256 msg) = 32.
Proof. reflexivity. Qed.

Lemma hmac_sha256_length (key msg : bytes) :
  List.length (hashes.hmac_sha256 key msg) = 32.
Proof. unfold hashes.hmac_sha256. apply sha256_length. Qed.

End HashFacts.

(** ** Identity generator *)

Section GuidFactory.

Import guid_factory.

Lemma pad_guid_length (b : bytes) : List.length (pad_guid b) = 6.
Proof.
  unfold pad_guid.
  destruct (Nat.eqb_spec (List.length b) 6) as [E|NE]; [assumption|].
  destruct (Nat.ltb_spec (List.length b) 6) as [L|G].
  - rewrite length_app, repeat_length. lia.
  - rewrite length_firstn. lia.
Qed.

Lemma pad_guid_exact (b : bytes) : List.length b = 6 -> pad_guid b = b.
Proof.
  intros H. unfold pad_guid. now rewrite (proj2 (Nat.eqb_eq _ _) H).
Qed.

(** C5. [pad_guid] keeps a 6-byte input, fills a shorter one with zero
    bytes on the right up to 6, keeps the first 6 bytes of a longer
    one; the result always has 6 bytes, and every input is accepted
    ([pad_guid] is a total function into [bytes]). *)
Theorem pad_guid_policy (b : bytes) :
  (List.length b = 6 -> pad_guid b = b) /\
  (List.length b < 6 -> pad_guid b = b ++ repeat x00 (6 - List.length b)) /\
  (List.length b > 6 -> pad_guid b = firstn 6 b) /\
  List.length (pad_guid b) = 6.
Proof.
  repeat split; try apply pad_guid_length; intros H; unfold pad_guid.
  - now apply pad_guid_exact.
  - destruct (Nat.eqb_spec (List.length b) 6); [lia|].
    destruct (Nat.ltb_spec (List.length b) 6); [reflexivity|lia].
  - destruct (Nat.eqb_spec (List.length b) 6); [lia|].
    destruct (Nat.ltb_spec (List.length b) 6); [lia|reflexivity].
Qed.

Lemma pad_guid_policy_witness :
  pad_guid [x01; x02; x03; x04; x05; x06] = [x01; x02; x03; x04; x05; x06]
  /\ pad_guid [x01; x02] = [x01; x02; x00; x00; x00; x00]
  /\ pad_guid [x01; x02; x03; x04; x05; x06; x07; x08]
     = [x01; x02; x03; x04; x05; x06].
Proof.
  split; [|split].
  - destruct (pad_guid_policy [x01; x02; x03; x04; x05; x06]) as (H & _).
    apply H. reflexivity.
  - destruct (pad_guid_policy [x01; x02]) as (_ & H & _).
    apply H. simpl. lia.
  - destruct (pad_guid_policy [x01; x02; x03; x04; x05; x06; x07; x08])
      as (_ & _ & H & _).
    apply H. simpl. lia.
Defined.

End GuidFactory.

(** ** Authentication primitive *)

Section DataCrypto.

Import data_crypto.

Lemma compute_hmac_bad_key (data key : bytes) (t : Z) :
  List.length key <> 32 ->
  compute_hmac data key t = Raise (key_length_error key).
Proof.
  intros H. unfold compute_hmac.
  now rewrite (proj2 (Nat.eqb_neq _ _) H).
Qed.

Lemma compute_hmac_bad_tag (data key : bytes) (t : Z) :
  List.length key = 32 -> (32 < t)%Z ->
  compute_hmac data key t = Raise (tag_length_error t).
Proof.
  intros Hk Ht. unfold compute_hmac.
  rewrite (proj2 (Nat.eqb_eq _ _) Hk). simpl negb. cbv iota.
  now rewrite (proj2 (Z.ltb_lt _ _) Ht).
Qed.

(** With a key of 32 bytes and a tag length of at most 32 the context
    is created, fed and finalized once, so neither call on it raises. *)
Lemma compute_hmac_ok (data key : bytes) (t : Z) :
  List.length key = 32 -> (t <= 32)%Z ->
  compute_hmac data key t = Ok (slice_to (hashes.hmac_sha256 key data) t).
Proof.
  intros Hk Ht. unfold compute_hmac.
  rewrite (proj2 (Nat.eqb_eq _ _) Hk). simpl negb. cbv iota.
  rewrite (proj2 (Z.ltb_ge _ _) Ht).
  reflexivity.
Qed.

(** Every outcome of [compute_hmac] is a value or a [ValueError]. *)
Lemma compute_hmac_outcome (data key : bytes) (t : Z) :
  (exists mac, compute_hmac data key t = Ok mac)
  \/ (exists msg, compute_hmac data key t = Raise (ValueError msg)).
Proof.
  destruct (Nat.eq_dec (List.length key) 32) as [Hk|Hk].
  - destruct (Z_lt_le_dec 32 t) as [Ht|Ht].
    + right. rewrite compute_hmac_bad_tag by assumption. now eexists.
    + left. rewrite compute_hmac_ok by assumption. now eexists.
  - right. rewrite compute_hmac_bad_key by assumption. now eexists.
Qed.

Lemma compute_packet_hmac_ok (guid payload key : bytes) :
  List.length guid = 6 -> List.length key = 32 ->
  compute_packet_hmac guid payload key
  = Ok (firstn 16 (hashes.hmac_sha256 key (guid ++ payload))).
Proof.
  intros Hg Hk. unfold compute_packet_hmac.
  rewrite (proj2 (Nat.eqb_eq _ _) Hg). simpl negb. cbv iota.
  rewrite compute_hmac_ok by (assumption || lia).
  reflexivity.
Qed.

Lemma compute_packet_hmac_outcome (guid payload key : bytes) :
  (exists mac, compute_packet_hmac guid payload key = Ok mac)
  \/ (exists msg, compute_packet_hmac guid payload key = Raise (ValueError msg)).
Proof.
  unfold compute_packet_hmac.
  destruct (negb (Nat.eqb (List.length guid) 6)).
  - right. now eexists.
  - apply compute_hmac_outcome.
Qed.

(** A negative [truncate_to] passes both guards and is sliced from the
    end of the digest, as Python slices do. *)
Lemma compute_hmac_negative_tag (data key : bytes) (t : Z) :
  List.length key = 32 -> (-32 <= t < 0)%Z ->
  compute_hmac data key t
  = Ok (firstn (Z.to_nat (32 + t)) (hashes.hmac_sha256 key data)).
Proof.
  intros Hk Ht. rewrite compute_hmac_ok by (assumption || lia).
  unfold slice_to. rewrite hmac_sha256_length.
  destruct (Z.ltb_spec t 0); [|lia].
  now rewrite Z.max_r by lia.
Qed.

(** C7. [compute_hmac] raises the key-length [ValueError] for a key
    that is not 32 bytes long; with a 32-byte key it raises the
    tag-length [ValueError] for a tag length above 32 (and raises some
    [ValueError] for such a tag length under any key); otherwise, for a
    tag length between 0 and 32, it returns the first [tag_length]
    bytes of the HMAC-SHA256 digest of the message under the key.  Equal
    inputs give equal results. *)
Theorem compute_hmac_contract (message key : bytes) (tag_length : Z) :
  (List.length key <> 32 ->
   compute_hmac message key tag_length = Raise (key_length_error key))
  /\ (List.length key = 32 -> (32 < tag_length)%Z ->
      compute_hmac message key tag_length = Raise (tag_length_error tag_length))
  /\ ((32 < tag_length)%Z ->
      exists msg, compute_hmac message key tag_length = Raise (ValueError msg))
  /\ (List.length key = 32 -> (0 <= tag_length <= 32)%Z ->
      compute_hmac message key tag_length
      = Ok (firstn (Z.to_nat tag_length) (hashes.hmac_sha256 key message)))
  /\ (forall message' key' tag_length',
        message' = message -> key' = key -> tag_length' = tag_length ->
        compute_hmac message' key' tag_length'
        = compute_hmac message key tag_length).
Proof.
  split; [|split; [|split; [|split]]].
  - apply compute_hmac_bad_key.
  - apply compute_hmac_bad_tag.
  - intros Ht. destruct (Nat.eq_dec (List.length key) 32) as [Hk|Hk].
    + rewrite compute_hmac_bad_tag by assumption. now eexists.
    + rewrite compute_hmac_bad_key by assumption. now eexists.
  - intros Hk [H0 H32]. rewrite compute_hmac_ok by assumption.
    now rewrite slice_to_nonneg.
  - intros ? ? ? -> -> ->. reflexivity.
Qed.

Lemma compute_hmac_contract_witness :
  compute_hmac [x64; x61; x74; x61] [x73; x68; x6f; x72; x74] 16
  = Raise (ValueError "Key must be 32 bytes, got 5")
  /\ compute_hmac [x64; x61; x74; x61] (repeat x00 32) 33
     = Raise (ValueError "Cannot truncate to more than 32 bytes, got 33")
  /\ compute_hmac [x74; x65; x73; x74] (repeat x00 32) 8
     = Ok (firstn 8 (hashes.hmac_sha256 (repeat x00 32) [x74; x65; x73; x74])).
Proof.
  split; [|split].
  - destruct (compute_hmac_contract
                [x64; x61; x74; x61] [x73; x68; x6f; x72; x74] 16) as (H & _).
    apply H. simpl. lia.
  - destruct (compute_hmac_contract [x64; x61; x74; x61] (repeat x00 32) 33)
      as (_ & H & _).
    apply H; [reflexivity | lia].
  - destruct (compute_hmac_contract [x74; x65; x73; x74] (repeat x00 32) 8)
      as (_ & _ & _ & H & _).
    apply H; [reflexivity | lia].
Defined.

Lemma validate_hmac_constant_time_eq
    (data key expected : bytes) (t : Z) :
  validate_hmac_constant_time data key expected t
  = Ok (Nat.eqb (List.length key) 32 && (t <=? 32)%Z
        && compare_digest (slice_to (hashes.hmac_sha256 key data) t) expected).
Proof.
  unfold validate_hmac_constant_time.
  destruct (Nat.eqb_spec (List.length key) 32) as [Hk|Hk].
  - destruct (Z.leb_spec t 32) as [Ht|Ht].
    + now rewrite compute_hmac_ok by assumption.
    + now rewrite compute_hmac_bad_tag by assumption.
  - now rewrite compute_hmac_bad_key by assumption.
Qed.

Lemma validate_packet_hmac_eq (guid payload key expected : bytes) :
  validate_packet_hmac guid payload key expected
  = Ok (Nat.eqb (List.length guid) 6 && Nat.eqb (List.length key) 32
        && compare_digest
             (firstn 16 (hashes.hmac_sha256 key (guid ++ payload))) expected).
Proof.
  unfold validate_packet_hmac.
  destruct (Nat.eqb_spec (List.length guid) 6) as [Hg|Hg].
  - destruct (Nat.eqb_spec (List.length key) 32) as [Hk|Hk].
    + now rewrite compute_packet_hmac_ok by assumption.
    + unfold compute_packet_hmac.
      rewrite (proj2 (Nat.eqb_eq _ _) Hg). simpl negb. cbv iota.
      now rewrite compute_hmac_bad_key by assumption.
  - unfold compute_packet_hmac.
    now rewrite (proj2 (Nat.eqb_neq _ _) Hg).
Qed.

(** C4. Both validators return a boolean on every input and never
    raise: whatever the message, the key, the candidate tag and the tag
    length are, the outcome is [Ok b].  A failure of the recomputation
    (a key that is not 32 bytes long, a tag length above 32, a GUID
    that is not 6 bytes long) gives [Ok false]. *)
Theorem validate_hmac_total
    (message key candidate : bytes) (tag_length : Z) (guid payload : bytes) :
  (exists b, validate_hmac_constant_time message key candidate tag_length = Ok b)
  /\ (List.length key <> 32 ->
      validate_hmac_constant_time message key candidate tag_length = Ok false)
  /\ ((32 < tag_length)%Z ->
      validate_hmac_constant_time message key candidate tag_length = Ok false)
  /\ (exists b, validate_packet_hmac guid payload key candidate = Ok b)
  /\ (List.length key <> 32 ->
      validate_packet_hmac guid payload key candidate = Ok false)
  /\ (List.length guid <> 6 ->
      validate_packet_hmac guid payload key candidate = Ok false).
Proof.
  rewrite validate_hmac_constant_time_eq, validate_packet_hmac_eq.
  repeat split.
  - now eexists.
  - intros Hk. now rewrite (proj2 (Nat.eqb_neq _ _) Hk).
  - intros Ht. rewrite (proj2 (Z.leb_gt _ _) Ht).
    now rewrite andb_false_r.
  - now eexists.
  - intros Hk. rewrite (proj2 (Nat.eqb_neq _ _) Hk).
    now rewrite andb_false_r.
  - intros Hg. now rewrite (proj2 (Nat.eqb_neq _ _) Hg).
Qed.

Lemma validate_hmac_total_witness :
  validate_hmac_constant_time
    [x74; x65; x73; x74] [x73; x68; x6f; x72; x74] (repeat x00 16) 16
  = Ok false
  /\ validate_hmac_constant_time
       [x74; x65; x73; x74] (repeat x00 32) (repeat x00 16) 33
     = Ok false
  /\ validate_packet_hmac
       (repeat x01 6) [x74; x65; x73; x74] [x73; x68; x6f; x72; x74]
       (repeat x00 16)
     = Ok false
  /\ validate_packet_hmac
       [x01; x02] [x74; x65; x73; x74] (repeat x00 32) (repeat x00 16)
     = Ok false.
Proof.
  split; [|split; [|split]].
  - destruct (validate_hmac_total
                [x74; x65; x73; x74] [x73; x68; x6f; x72; x74]
                (repeat x00 16) 16 [] []) as (_ & H & _).
    apply H. simpl. lia.
  - destruct (validate_hmac_total
                [x74; x65; x73; x74] (repeat x00 32)
                (repeat x00 16) 33 [] []) as (_ & _ & H & _).
    apply H. lia.
  - destruct (validate_hmac_total
                [] [x73; x68; x6f; x72; x74] (repeat x00 16) 16
                (repeat x01 6) [x74; x65; x73; x74]) as (_ & _ & _ & _ & H & _).
    apply H. simpl. lia.
  - destruct (validate_hmac_total
                [] (repeat x00 32) (repeat x00 16) 16
                [x01; x02] [x74; x65; x73; x74]) as (_ & _ & _ & _ & _ & H).
    apply H. simpl. lia.
Defined.

End DataCrypto.

(** ** Packet *)

Section PacketFacts.

Import packet.

Lemma new_ok (h g p : bytes) :
  List.length h = 16 -> List.length g = 6 -> new h g p = Ok (mkPacket h g p).
Proof.
  intros Hh Hg. unfold new, post_init. simpl.
  now rewrite (proj2 (Nat.eqb_eq _ _) Hh), (proj2 (Nat.eqb_eq _ _) Hg).
Qed.

Lemma new_bad_hmac (h g p : bytes) :
  List.length h <> 16 ->
  new h g p = Raise (ValueError ("hmac must be 16 bytes, got "
                                   ++ str_of_nat (List.length h))%string).
Proof.
  intros Hh. unfold new, post_init. simpl.
  now rewrite (proj2 (Nat.eqb_neq _ _) Hh).
Qed.

Lemma new_bad_guid (h g p : bytes) :
  List.length h = 16 -> List.length g <> 6 ->
  new h g p = Raise (ValueError ("guid must be 6 bytes, got "
                                   ++ str_of_nat (List.length g))%string).
Proof.
  intros Hh Hg. unfold new, post_init. simpl.
  now rewrite (proj2 (Nat.eqb_eq _ _) Hh), (proj2 (Nat.eqb_neq _ _) Hg).
Qed.

(** A packet that the constructor returns has the fields it was given
    and the two fixed widths. *)
Lemma new_inv (h g p : bytes) (pk : Packet) :
  new h g p = Ok pk -> pk = mkPacket h g p /\ well_formed pk.
Proof.
  intros H.
  destruct (Nat.eq_dec (List.length h) 16) as [Hh|Hh];
    [|rewrite new_bad_hmac in H by assumption; discriminate].
  destruct (Nat.eq_dec (List.length g) 6) as [Hg|Hg];
    [|rewrite new_bad_guid in H by assumption; discriminate].
  rewrite new_ok in H by assumption. injection H as <-.
  split; [reflexivity | split; assumption].
Qed.

Lemma from_bytes_short (data : bytes) :
  List.length data < 22 -> from_bytes data = Ok None.
Proof.
  intros H. unfold from_bytes.
  now rewrite (proj2 (Nat.ltb_lt _ _) H).
Qed.

Lemma from_bytes_long (data : bytes) :
  22 <= List.length data ->
  from_bytes data
  = Ok (Some (mkPacket (slice data 0 16) (slice data 16 22) (slice_from data 22))).
Proof.
  intros H. unfold from_bytes.
  rewrite (proj2 (Nat.ltb_ge _ _) H).
  destruct (slice_lengths data H) as [Hm Hg].
  cbv zeta. now rewrite new_ok by assumption.
Qed.

Lemma from_bytes_inv (data : bytes) (pk : Packet) :
  from_bytes data = Ok (Some pk) -> well_formed pk /\ to_bytes pk = data.
Proof.
  intros H.
  destruct (Nat.lt_ge_cases (List.length data) 22) as [Hs|Hl].
  - rewrite from_bytes_short in H by assumption. discriminate.
  - rewrite from_bytes_long in H by assumption. injection H as <-.
    split; [exact (slice_lengths data Hl) | apply slices_partition].
Qed.

Lemma from_bytes_to_bytes (pk : Packet) :
  well_formed pk -> from_bytes (to_bytes pk) = Ok (Some pk).
Proof.
  destruct pk as [m g p]. intros [Hm Hg]. simpl in Hm, Hg.
  unfold to_bytes. simpl.
  rewrite from_bytes_long by (rewrite !length_app; lia).
  rewrite slice_mac, slice_guid, slice_payload by assumption.
  reflexivity.
Qed.

(** C3. [from_bytes] returns [None] exactly for inputs shorter than 22
    bytes; an input of at least 22 bytes gives a well-formed packet
    whose mac is bytes 0 to 16, whose identifier is bytes 16 to 22 and
    whose payload is the rest of the input. *)
Theorem from_bytes_decode (b : bytes) :
  (from_bytes b = Ok None <-> List.length b < 22)
  /\ (22 <= List.length b ->
      exists pk,
        from_bytes b = Ok (Some pk)
        /\ well_formed pk
        /\ hmac pk = firstn 16 b
        /\ guid pk = firstn 6 (skipn 16 b)
        /\ payload pk = skipn 22 b).
Proof.
  split.
  - split; [|apply from_bytes_short].
    intros H. destruct (Nat.lt_ge_cases (List.length b) 22) as [Hs|Hl];
      [assumption|].
    rewrite from_bytes_long in H by assumption. discriminate.
  - intros H. eexists. split; [apply from_bytes_long; assumption|].
    split; [exact (slice_lengths b H)|]. repeat split.
Qed.

Lemma from_bytes_decode_witness :
  from_bytes (repeat x00 21) = Ok None
  /\ exists pk,
       from_bytes (repeat xaa 16 ++ repeat xbb 6 ++ [x74; x65; x73; x74])
       = Ok (Some pk)
       /\ hmac pk = repeat xaa 16
       /\ guid pk = repeat xbb 6
       /\ payload pk = [x74; x65; x73; x74].
Proof.
  split.
  - apply (from_bytes_decode (repeat x00 21)). simpl. lia.
  - destruct (from_bytes_decode
                (repeat xaa 16 ++ repeat xbb 6 ++ [x74; x65; x73; x74]))
      as (_ & H).
    destruct H as (pk & Hpk & _ & Hm & Hg & Hp); [simpl; lia|].
    exists pk. repeat split; assumption.
Defined.

(** C10. On inputs of at least 22 bytes [from_bytes] succeeds and
    [to_bytes] restores the input; on well-formed packets [from_bytes]
    restores the packet from its [to_bytes] image.  Neither direction
    looks at the authenticity of the mac. *)
Theorem to_bytes_from_bytes_inverse :
  (forall b : bytes,
      22 <= List.length b ->
      exists pk, from_bytes b = Ok (Some pk) /\ to_bytes pk = b)
  /\ (forall pk : Packet,
        well_formed pk -> from_bytes (to_bytes pk) = Ok (Some pk)).
Proof.
  split.
  - intros b H. eexists. split; [apply from_bytes_long; assumption|].
    apply slices_partition.
  - apply from_bytes_to_bytes.
Qed.

Lemma to_bytes_from_bytes_inverse_witness :
  (exists pk, from_bytes (repeat x00 22 ++ [x01; x02]) = Ok (Some pk)
              /\ to_bytes pk = repeat x00 22 ++ [x01; x02])
  /\ from_bytes (to_bytes (mkPacket (repeat xaa 16) (repeat xbb 6) [x58]))
     = Ok (Some (mkPacket (repeat xaa 16) (repeat xbb 6) [x58])).
Proof.
  destruct to_bytes_from_bytes_inverse as [Hb Hp]. split.
  - apply Hb. simpl. lia.
  - apply Hp. split; reflexivity.
Defined.

End PacketFacts.

(** ** Packet pipeline *)

Section PacketBuilder.

Import packet packet_builder.

Lemma firstn_16_hmac_length (key msg : bytes) :
  List.length (firstn 16 (hashes.hmac_sha256 key msg)) = 16.
Proof. rewrite length_firstn, hmac_sha256_length. reflexivity. Qed.

Lemma build_packet_ok (identifier payload key : bytes) :
  List.length key = 32 ->
  build_packet identifier payload key
  = Ok (mkPacket
          (firstn 16 (hashes.hmac_sha256
                        key (guid_factory.pad_guid identifier ++ payload)))
          (guid_factory.pad_guid identifier)
          payload).
Proof.
  intros Hk. unfold build_packet. cbv zeta.
  rewrite compute_packet_hmac_ok by (apply pad_guid_length || assumption).
  cbn [bind].
  apply new_ok; [apply firstn_16_hmac_length | apply pad_guid_length].
Qed.

Lemma build_packet_inv (identifier payload key : bytes) (pk : Packet) :
  build_packet identifier payload key = Ok pk -> well_formed pk.
Proof.
  unfold build_packet. cbv zeta.
  destruct (data_crypto.compute_packet_hmac _ payload key) as [mac|e];
    simpl; [|discriminate].
  intros H. now apply new_inv in H.
Qed.

(** C2. Under a 32-byte key [build_packet] returns the packet whose mac
    is the first 16 bytes of the HMAC-SHA256 digest, under the key, of
    the padded identifier followed by the payload, whose identifier is
    the padded identifier and whose payload is the payload as given. *)
Theorem build_packet_mac (identifier payload key : bytes) :
  List.length key = 32 ->
  exists pk,
    build_packet identifier payload key = Ok pk
    /\ hmac pk = firstn 16 (hashes.hmac_sha256
                              key (guid_factory.pad_guid identifier ++ payload))
    /\ guid pk = guid_factory.pad_guid identifier
    /\ packet.payload pk = payload.
Proof.
  intros Hk. eexists. split; [apply build_packet_ok; assumption|].
  repeat split.
Qed.

Lemma build_packet_mac_witness :
  exists pk,
    build_packet [x01; x02] [x74; x65; x73; x74] (repeat x00 32) = Ok pk
    /\ hmac pk = firstn 16 (hashes.hmac_sha256
                              (repeat x00 32)
                              ([x01; x02; x00; x00; x00; x00]
                                 ++ [x74; x65; x73; x74]))
    /\ guid pk = [x01; x02; x00; x00; x00; x00]
    /\ payload pk = [x74; x65; x73; x74].
Proof.
  apply (build_packet_mac [x01; x02] [x74; x65; x73; x74] (repeat x00 32)).
  reflexivity.
Defined.

Lemma validate_hmac_built (g p key : bytes) :
  List.length g = 6 -> List.length key = 32 ->
  validate_hmac
    (mkPacket (firstn 16 (hashes.hmac_sha256 key (g ++ p))) g p) key
  = Ok true.
Proof.
  intros Hg Hk. unfold validate_hmac. cbn [hmac guid payload].
  rewrite validate_packet_hmac_eq.
  rewrite (proj2 (Nat.eqb_eq _ _) Hg), (proj2 (Nat.eqb_eq _ _) Hk).
  now rewrite compare_digest_refl.
Qed.

(** C1. Under a 32-byte key, for every identifier and payload,
    [build_and_serialize] returns wire bytes on which
    [parse_and_validate] with the same key returns a packet; that
    packet is the one [build_packet] makes, its identifier is the
    padded identifier and its payload is the original payload. *)
Theorem build_parse_roundtrip (identifier payload key : bytes) :
  List.length key = 32 ->
  exists wire pk,
    build_and_serialize identifier payload key = Ok wire
    /\ parse_and_validate wire key = Ok (Some pk)
    /\ guid pk = guid_factory.pad_guid identifier
    /\ packet.payload pk = payload
    /\ build_packet identifier payload key = Ok pk.
Proof.
  intros Hk.
  pose proof (pad_guid_length identifier) as Hg.
  pose proof (firstn_16_hmac_length
                key (guid_factory.pad_guid identifier ++ payload)) as Hm.
  unfold build_and_serialize, parse_and_validate, parse_packet.
  rewrite build_packet_ok by assumption. cbn [bind].
  do 2 eexists. split; [reflexivity|].
  rewrite from_bytes_to_bytes by (split; assumption).
  cbn [bind].
  rewrite validate_hmac_built by assumption. cbn [bind negb].
  repeat split.
Qed.

Lemma build_parse_roundtrip_witness :
  exists wire pk,
    build_and_serialize [x01; x02] [x74; x65; x73; x74] (repeat x00 32)
    = Ok wire
    /\ parse_and_validate wire (repeat x00 32) = Ok (Some pk)
    /\ guid pk = [x01; x02; x00; x00; x00; x00]
    /\ payload pk = [x74; x65; x73; x74]
    /\ build_packet [x01; x02] [x74; x65; x73; x74] (repeat x00 32) = Ok pk.
Proof.
  apply (build_parse_roundtrip
           [x01; x02] [x74; x65; x73; x74] (repeat x00 32)).
  reflexivity.
Defined.

Lemma parse_and_validate_inv (data key : bytes) (pk : Packet) :
  parse_and_validate data key = Ok (Some pk) ->
  from_bytes data = Ok (Some pk) /\ validate_hmac pk key = Ok true.
Proof.
  unfold parse_and_validate, parse_packet.
  destruct (from_bytes data) as [[q|]|e]; cbn [bind]; try discriminate.
  destruct (validate_hmac q key) as [[|]|e] eqn:Hv; cbn [bind negb];
    try discriminate.
  intros H. injection H as <-. split; [reflexivity | assumption].
Qed.

(** Each method body reads attributes and assigns none: run on any
    instance it gives what the method gives as a function of the
    attributes, and leaves the attributes as they were. *)
Lemma post_init_body_run (self : Packet) :
  post_init_body self = (post_init self, self).
Proof.
  unfold post_init_body, post_init, body_bind, read, body_raise, body_ret.
  cbn [getattr].
  destruct (negb (Nat.eqb (List.length (hmac self)) 16)); [reflexivity|].
  now destruct (negb (Nat.eqb (List.length (guid self)) 6)).
Qed.

Lemma validate_hmac_body_run (key : bytes) (self : Packet) :
  validate_hmac_body key self = (validate_hmac self key, self).
Proof. reflexivity. Qed.

(** C8, as first stated: every packet that exists would have a mac of
    16 bytes and an identifier of 6 bytes, and no operation would change
    a packet after construction.  The dataclass is not frozen: a packet
    that the constructor accepted is changed by an assignment to its
    [hmac] attribute, and no longer has a mac of 16 bytes. *)
Lemma packet_assignment_counterexample :
  new (repeat x00 16) (repeat x01 6) []
  = Ok (mkPacket (repeat x00 16) (repeat x01 6) [])
  /\ assign attr_hmac [] (mkPacket (repeat x00 16) (repeat x01 6) [])
     = (Ok tt, mkPacket [] (repeat x01 6) [])
  /\ mkPacket [] (repeat x01 6) [] <> mkPacket (repeat x00 16) (repeat x01 6) []
  /\ ~ well_formed (mkPacket [] (repeat x01 6) []).
Proof.
  split; [reflexivity|]. split; [reflexivity|]. split.
  - discriminate.
  - intros [H _]. discriminate H.
Qed.

(** C8, amended.  The constructor accepts exactly the fields with a
    16-byte mac and a 6-byte identifier and raises [ValueError] for any
    other width; every packet returned by the constructor, by the
    builder, by the parser or by [parse_and_validate] has these two
    widths; and no method or function of the code that is given a packet
    ([__post_init__], [to_bytes], [__len__], [__repr__],
    [PacketBuilder.validate_hmac]) assigns to an attribute: each leaves
    the attributes as they were and returns what it computes from
    them.  Assignment by a caller is outside this statement. *)
Theorem packet_invariant :
  (forall h g p : bytes,
      List.length h = 16 -> List.length g = 6 ->
      new h g p = Ok (mkPacket h g p))
  /\ (forall h g p : bytes,
        List.length h <> 16 \/ List.length g <> 6 ->
        exists msg, new h g p = Raise (ValueError msg))
  /\ (forall (h g p : bytes) (pk : Packet),
        new h g p = Ok pk -> well_formed pk)
  /\ (forall (identifier payload key : bytes) (pk : Packet),
        build_packet identifier payload key = Ok pk -> well_formed pk)
  /\ (forall (data : bytes) (pk : Packet),
        parse_packet data = Ok (Some pk) -> well_formed pk)
  /\ (forall (data key : bytes) (pk : Packet),
        parse_and_validate data key = Ok (Some pk) -> well_formed pk)
  /\ (forall self : Packet,
        post_init_body self = (post_init self, self)
        /\ to_bytes_body self = (Ok (to_bytes self), self)
        /\ len_body self = (Ok (len self), self)
        /\ repr_body self = (Ok (repr self), self)
        /\ forall key : bytes,
             validate_hmac_body key self = (validate_hmac self key, self)).
Proof.
  split; [exact new_ok|].
  split.
  { intros h g p Hbad.
    destruct (Nat.eq_dec (List.length h) 16) as [Hh|Hh].
    - destruct Hbad as [Hbad|Hg]; [contradiction|].
      rewrite new_bad_guid by assumption. now eexists.
    - rewrite new_bad_hmac by assumption. now eexists. }
  split; [intros h g p pk H; now apply new_inv in H|].
  split; [exact build_packet_inv|].
  split; [intros data pk H; now apply from_bytes_inv in H|].
  split.
  { intros data key pk H. apply parse_and_validate_inv in H.
    destruct H as [H _]. now apply from_bytes_inv in H. }
  intros self. split; [apply post_init_body_run|].
  split; [reflexivity|]. split; [reflexivity|]. split; [reflexivity|].
  intros key. apply validate_hmac_body_run.
Qed.

Lemma packet_invariant_witness :
  new (repeat x00 16) (repeat x01 6) [x74] 
  = Ok (mkPacket (repeat x00 16) (repeat x01 6) [x74])
  /\ (exists msg, new (repeat x00 15) (repeat x01 6) [] = Raise (ValueError msg))
  /\ (exists msg, new (repeat x00 16) (repeat x01 7) [] = Raise (ValueError msg))
  /\ well_formed (mkPacket (repeat x00 16) (repeat x01 6) [x74])
  /\ well_formed (mkPacket (repeat xaa 16) (repeat xbb 6) [])
  /\ to_bytes_body (mkPacket (repeat xaa 16) (repeat xbb 6) [x74])
     = (Ok (repeat xaa 16 ++ repeat xbb 6 ++ [x74]),
        mkPacket (repeat xaa 16) (repeat xbb 6) [x74]).
Proof.
  destruct packet_invariant as (Hok & Hbad & Hnew & _ & Hparse & _ & Hbody).
  split; [apply Hok; reflexivity|].
  split; [apply Hbad; left; simpl; lia|].
  split; [apply Hbad; right; simpl; lia|].
  split; [apply (Hnew (repeat x00 16) (repeat x01 6) [x74]); reflexivity|].
  split; [apply (Hparse (repeat xaa 16 ++ repeat xbb 6)); reflexivity|].
  apply (Hbody (mkPacket (repeat xaa 16) (repeat xbb 6) [x74])).
Defined.

End PacketBuilder.

(** ** Hex codec *)

Section HexCodec.

Import hex_text guid_factory.

Ltac each_ascii c :=
  destruct c as [[|] [|] [|] [|] [|] [|] [|] [|]].

Lemma Py_ISSPACE_whitespace (c : ascii) : Py_ISSPACE c = is_whitespace c.
Proof. each_ascii c; reflexivity. Qed.

Lemma DigitValue_hex (c : ascii) :
  (16 <=? PyLong_DigitValue c)%N = negb (is_hex_digit c).
Proof. each_ascii c; reflexivity. Qed.

Lemma hex_digit_not_space (c : ascii) :
  is_hex_digit c = true -> is_whitespace c = false.
Proof. each_ascii c; intros H; try reflexivity; discriminate H. Qed.

Lemma hex_digit_ascii (c : ascii) :
  is_hex_digit c = true -> (128 <=? N_of_ascii c)%N = false.
Proof. each_ascii c; intros H; try reflexivity; discriminate H. Qed.

Lemma whitespace_ascii (c : ascii) :
  is_whitespace c = true -> (128 <=? N_of_ascii c)%N = false.
Proof. each_ascii c; intros H; try reflexivity; discriminate H. Qed.

Lemma lower_hex_is_hex (c : ascii) :
  is_lower_hex_digit c = true -> is_hex_digit c = true /\ lower c = c.
Proof. each_ascii c; intros H; try discriminate H; split; reflexivity. Qed.

Lemma char_in_In (set : string) (c : ascii) :
  char_in set c = true -> In c (list_ascii_of_string set).
Proof.
  unfold char_in. rewrite existsb_exists. intros (x & Hin & Heq).
  apply Ascii.eqb_eq in Heq. now subst.
Qed.

(** The octet built from two hex digits prints as these digits, with
    letters in lower case. *)
Lemma hex_pair_roundtrip (c d : ascii) :
  is_hex_digit c = true -> is_hex_digit d = true ->
  let b := byte_of_Z
             (Z.of_N (N.shiftl (PyLong_DigitValue c) 4 + PyLong_DigitValue d)) in
  hexdigit (Z.shiftr (Z_of_byte b) 4) = lower c
  /\ hexdigit (Z.land (Z_of_byte b) 15) = lower d.
Proof.
  intros Hc Hd. apply char_in_In in Hc. apply char_in_In in Hd.
  simpl in Hc, Hd.
  repeat (destruct Hc as [<-|Hc]; [|]); try contradiction;
    repeat (destruct Hd as [<-|Hd]; [|]); try contradiction;
    split; reflexivity.
Qed.

Lemma string_pair_ind (P : string -> Prop) :
  P EmptyString ->
  (forall c, P (String c EmptyString)) ->
  (forall c d s, P s -> P (String d s) -> P (String c (String d s))) ->
  forall s, P s.
Proof.
  intros H0 H1 H2 s.
  assert (H : P s /\ forall c, P (String c s)); [|tauto].
  induction s as [|a s [IHs IHc]]; split; auto.
Qed.

Lemma hex_pairs_inv (c : ascii) (s : string) :
  hex_pairs (String c s) <->
  (is_whitespace c = true /\ hex_pairs s)
  \/ (is_hex_digit c = true
      /\ exists d s', s = String d s' /\ is_hex_digit d = true /\ hex_pairs s').
Proof.
  split.
  - intros H. inversion H; subst; [left | right]; eauto 6.
  - intros [[Hc Hs] | (Hc & d & s' & -> & Hd & Hs)];
      [now apply hex_pairs_space | now apply hex_pairs_pair].
Qed.

Lemma fromhex_scan_one (pos : nat) (c : ascii) :
  fromhex_scan pos (String c EmptyString)
  = if is_whitespace c then Ok []
    else if is_hex_digit c then Raise (fromhex_error (S pos))
         else Raise (fromhex_error pos).
Proof.
  cbn [fromhex_scan]. rewrite Py_ISSPACE_whitespace, DigitValue_hex.
  now destruct (is_whitespace c), (is_hex_digit c).
Qed.

Lemma fromhex_scan_two (pos : nat) (c d : ascii) (s : string) :
  fromhex_scan pos (String c (String d s))
  = if is_whitespace c then fromhex_scan (S pos) (String d s)
    else if is_hex_digit c then
           if is_hex_digit d then
             tl <- fromhex_scan (S (S pos)) s ;;
             Ok (byte_of_Z
                   (Z.of_N (N.shiftl (PyLong_DigitValue c) 4
                            + PyLong_DigitValue d)) :: tl)
           else Raise (fromhex_error (S pos))
         else Raise (fromhex_error pos).
Proof.
  change (fromhex_scan pos (String c (String d s)))
    with (if Py_ISSPACE c then fromhex_scan (S pos) (String d s)
          else if (16 <=? PyLong_DigitValue c)%N then Raise (fromhex_error pos)
               else if (16 <=? PyLong_DigitValue d)%N
                    then Raise (fromhex_error (S pos))
                    else
                      tl <- fromhex_scan (S (S pos)) s ;;
                      Ok (byte_of_Z
                            (Z.of_N (N.shiftl (PyLong_DigitValue c) 4
                                     + PyLong_DigitValue d)) :: tl)).
  rewrite Py_ISSPACE_whitespace, !DigitValue_hex.
  now destruct (is_whitespace c), (is_hex_digit c), (is_hex_digit d).
Qed.

(** The scanning loop accepts exactly the strings of the shape
    [hex_pairs]; the octets it returns print as the normalized input;
    every rejection is the [ValueError] of [bytes.fromhex]. *)
Lemma fromhex_scan_spec (s : string) :
  forall pos,
    (hex_pairs s
     /\ exists raw, fromhex_scan pos s = Ok raw /\ bytes_hex raw = normalized s)
    \/ (~ hex_pairs s
        /\ exists n, fromhex_scan pos s = Raise (fromhex_error n)).
Proof.
  induction s as [|c|c d s IHs IHds] using string_pair_ind; intros pos.
  - left. split; [constructor|]. exists []. split; reflexivity.
  - rewrite fromhex_scan_one. destruct (is_whitespace c) eqn:Hws.
    + left. split; [apply hex_pairs_space; [assumption|constructor]|].
      exists []. simpl. now rewrite Hws.
    + right. split.
      * rewrite hex_pairs_inv.
        intros [[H _]|(_ & d & s' & H & _)]; congruence.
      * destruct (is_hex_digit c); eauto.
  - rewrite fromhex_scan_two. destruct (is_whitespace c) eqn:Hws.
    + destruct (IHds (S pos)) as [[Hp (raw & Hr & Hh)] | [Hn (n & Hr)]].
      * left. split; [now apply hex_pairs_space|].
        exists raw. split; [assumption|].
        change (normalized (String c (String d s)))
          with (if is_whitespace c then normalized (String d s)
                else String (lower c) (normalized (String d s))).
        now rewrite Hws.
      * right. split; [|eauto]. rewrite hex_pairs_inv.
        intros [[_ H]|(Hc & _)]; [contradiction|].
        apply hex_digit_not_space in Hc. congruence.
    + destruct (is_hex_digit c) eqn:Hc.
      * destruct (is_hex_digit d) eqn:Hd.
        -- destruct (IHs (S (S pos))) as [[Hp (raw & Hr & Hh)] | [Hn (n & Hr)]].
           ++ left. split; [now apply hex_pairs_pair|].
              rewrite Hr. cbn [bind]. eexists. split; [reflexivity|].
              cbn [bytes_hex normalized].
              rewrite Hws, (hex_digit_not_space d Hd).
              destruct (hex_pair_roundtrip c d Hc Hd) as [-> ->].
              now rewrite Hh.
           ++ right. split; [|rewrite Hr; cbn [bind]; eauto].
              rewrite hex_pairs_inv.
              intros [[H _]|(_ & d' & s' & Heq & _ & Hs')]; [congruence|].
              injection Heq as <- <-. contradiction.
        -- right. split; [|eauto]. rewrite hex_pairs_inv.
           intros [[H _]|(_ & d' & s' & Heq & Hd' & _)]; [congruence|].
           injection Heq as <- <-. congruence.
      * right. split; [|eauto]. rewrite hex_pairs_inv.
        intros [[H _]|(H & _)]; congruence.
Qed.

Lemma hex_pairs_ascii (s : string) :
  hex_pairs s -> forall pos, find_non_ascii pos s = None.
Proof.
  induction 1 as [|c s Hc _ IH|c d s Hc Hd _ IH]; intros pos; cbn [find_non_ascii].
  - reflexivity.
  - now rewrite (whitespace_ascii c Hc).
  - now rewrite (hex_digit_ascii c Hc), (hex_digit_ascii d Hd).
Qed.

(** [bytes.fromhex] as a whole. *)
Lemma bytes_fromhex_spec (s : string) :
  (hex_pairs s
   /\ exists raw, bytes_fromhex s = Ok raw /\ bytes_hex raw = normalized s)
  \/ (~ hex_pairs s
      /\ exists n, bytes_fromhex s = Raise (fromhex_error n)).
Proof.
  unfold bytes_fromhex.
  destruct (find_non_ascii 0 s) as [n|] eqn:Hna.
  - right. split; [|eauto].
    intros Hp. rewrite (hex_pairs_ascii s Hp) in Hna. discriminate.
  - apply fromhex_scan_spec.
Qed.

Lemma bytes_hex_length (b : bytes) :
  String.length (bytes_hex b) = 2 * List.length b.
Proof. induction b as [|x b IH]; simpl; [reflexivity | rewrite IH; lia]. Qed.

(** Without whitespace the accepted strings are the strings of hex
    digits of even length. *)
Lemma hex_pairs_no_whitespace (s : string) :
  no_whitespace s = true ->
  (hex_pairs s <->
   all_chars is_hex_digit s = true /\ Nat.even (String.length s) = true).
Proof.
  unfold no_whitespace.
  induction s as [|c|c d s IHs _] using string_pair_ind; intros Hws.
  - split; [now split | constructor].
  - simpl in Hws. rewrite andb_true_r, negb_true_iff in Hws.
    rewrite hex_pairs_inv. split.
    + intros [[H _]|(_ & d & s' & H & _)]; congruence.
    + intros [_ H]. discriminate H.
  - cbn [all_chars] in Hws. rewrite !andb_true_iff, !negb_true_iff in Hws.
    destruct Hws as (Hc & Hd & Hs).
    rewrite hex_pairs_inv. cbn [all_chars String.length].
    rewrite !andb_true_iff. change (Nat.even (S (S (String.length s))))
      with (Nat.even (String.length s)).
    split.
    + intros [[H _]|(Hhc & d' & s' & Heq & Hhd & Hp)]; [congruence|].
      injection Heq as <- <-. apply IHs in Hp; tauto.
    + intros [(Hhc & Hhd & Hall) Hev]. right. split; [assumption|].
      exists d, s. repeat split; try assumption. apply IHs; tauto.
Qed.

Lemma lower_hex_string (s : string) :
  all_chars is_lower_hex_digit s = true ->
  all_chars is_hex_digit s = true
  /\ no_whitespace s = true
  /\ normalized s = s.
Proof.
  unfold no_whitespace.
  induction s as [|c s IH]; [now repeat split|].
  cbn [all_chars normalized]. rewrite andb_true_iff. intros [Hc Hs].
  destruct (IH Hs) as (H1 & H2 & H3).
  destruct (lower_hex_is_hex c Hc) as [Hh Hl].
  rewrite Hh, H1, H2, H3, Hl, (hex_digit_not_space c Hh). now repeat split.
Qed.

Lemma hexdigit_lower_hex (x : byte) :
  is_lower_hex_digit (hexdigit (Z.shiftr (Z_of_byte x) 4)) = true
  /\ is_lower_hex_digit (hexdigit (Z.land (Z_of_byte x) 15)) = true.
Proof. destruct x; split; reflexivity. Qed.

Lemma bytes_hex_lower (b : bytes) :
  all_chars is_lower_hex_digit (bytes_hex b) = true.
Proof.
  induction b as [|x b IH]; [reflexivity|].
  cbn [bytes_hex all_chars].
  destruct (hexdigit_lower_hex x) as [-> ->]. now rewrite IH.
Qed.

Lemma from_hex_outcome (s : string) :
  (hex_pairs s
   /\ exists raw, from_hex s = Ok (pad_guid raw)
                  /\ bytes_fromhex s = Ok raw
                  /\ bytes_hex raw = normalized s)
  \/ (~ hex_pairs s /\ exists n, from_hex s = Raise (fromhex_error n)).
Proof.
  unfold from_hex.
  destruct (bytes_fromhex_spec s) as [[Hp (raw & Hr & Hh)] | [Hn (n & Hr)]];
    rewrite Hr; cbn [bind]; [left | right]; eauto 6.
Qed.

Lemma from_hex_fails_iff (s : string) :
  (exists msg, from_hex s = Raise (ValueError msg)) <-> ~ hex_pairs s.
Proof.
  destruct (from_hex_outcome s) as [[Hp (raw & Hr & _)] | [Hn (n & Hr)]];
    rewrite Hr.
  - split; [intros [msg H]; discriminate H | contradiction].
  - split; [auto | intros _; unfold fromhex_error; eauto].
Qed.

(** C6, as first stated: [from_hex] would fail exactly on the strings
    that hold a non-hex character or have odd length.  The string
    [01 02] has both properties, and [from_hex] decodes it. *)
Lemma from_hex_whitespace_counterexample :
  ~ ((exists e, from_hex "01 02" = Raise e)
     <-> (all_chars is_hex_digit "01 02" = false
          \/ Nat.odd (String.length "01 02") = true)).
Proof.
  intros [_ H]. destruct H as [e He]; [left; reflexivity|].
  discriminate He.
Qed.

(** C6, amended.  [from_hex] raises the [ValueError] of
    [bytes.fromhex] exactly on the strings that are not a sequence of
    pairs of hex digits with ASCII whitespace in front of pairs or at
    the end; on strings without whitespace, that is exactly when the
    string holds a non-hex character or has odd length.  It never
    raises anything else.  When it succeeds it returns [pad_guid] of
    the decoded octets, whose lower-case hex print is the input without
    its whitespace and in lower case.  The empty string gives six zero
    bytes. *)
Theorem from_hex_contract (s : string) :
  ((exists msg, from_hex s = Raise (ValueError msg)) <-> ~ hex_pairs s)
  /\ (no_whitespace s = true ->
      ((exists msg, from_hex s = Raise (ValueError msg))
       <-> (all_chars is_hex_digit s = false
            \/ Nat.odd (String.length s) = true)))
  /\ ((exists g, from_hex s = Ok g)
      \/ (exists msg, from_hex s = Raise (ValueError msg)))
  /\ (forall g,
        from_hex s = Ok g ->
        exists raw,
          bytes_fromhex s = Ok raw
          /\ g = pad_guid raw
          /\ bytes_hex raw = normalized s)
  /\ from_hex "" = Ok (repeat x00 6).
Proof.
  split; [apply from_hex_fails_iff|].
  split.
  { intros Hws. rewrite from_hex_fails_iff, (hex_pairs_no_whitespace s Hws).
    rewrite <- Nat.negb_even.
    destruct (all_chars is_hex_digit s), (Nat.even (String.length s));
      simpl; intuition congruence. }
  split.
  { destruct (from_hex_outcome s) as [[_ (raw & Hr & _)] | [_ (n & Hr)]];
      rewrite Hr; [left | right; unfold fromhex_error]; eauto. }
  split; [|reflexivity].
  intros g Hg.
  destruct (from_hex_outcome s) as [[_ (raw & Hr & Hb & Hh)] | [_ (n & Hr)]];
    rewrite Hr in Hg; [|discriminate].
  injection Hg as <-. eauto.
Qed.

Lemma from_hex_contract_witness :
  (exists msg, from_hex "INVALID" = Raise (ValueError msg))
  /\ (exists msg, from_hex "012" = Raise (ValueError msg))
  /\ exists raw,
       bytes_fromhex "01 0A" = Ok raw
       /\ [x01; x0a; x00; x00; x00; x00] = pad_guid raw
       /\ bytes_hex raw = "010a"%string.
Proof.
  split; [|split].
  - destruct (from_hex_contract "INVALID") as (_ & H & _).
    apply H; [reflexivity | left; reflexivity].
  - destruct (from_hex_contract "012") as (_ & H & _).
    apply H; [reflexivity | right; reflexivity].
  - destruct (from_hex_contract "01 0A") as (_ & _ & _ & H & _).
    apply (H [x01; x0a; x00; x00; x00; x00]). reflexivity.
Defined.

(** C9. A string of exactly 12 lower-case hex digits is decoded by
    [from_hex] and printed back unchanged by [to_hex]; [to_hex] of a
    6-byte identifier is a string of exactly 12 lower-case hex
    digits. *)
Theorem hex_roundtrip :
  (forall s : string,
      String.length s = 12 ->
      all_chars is_lower_hex_digit s = true ->
      exists g, from_hex s = Ok g /\ to_hex g = s)
  /\ (forall g : bytes,
        List.length g = 6 ->
        String.length (to_hex g) = 12
        /\ all_chars is_lower_hex_digit (to_hex g) = true).
Proof.
  split.
  - intros s Hlen Hlow.
    destruct (lower_hex_string s Hlow) as (Hhex & Hws & Hnorm).
    assert (Hp : hex_pairs s).
    { apply hex_pairs_no_whitespace; [assumption|].
      split; [assumption | now rewrite Hlen]. }
    destruct (from_hex_outcome s) as [[_ (raw & Hr & _ & Hh)] | [Hn _]];
      [|contradiction].
    rewrite Hnorm in Hh.
    assert (Hraw : List.length raw = 6).
    { pose proof (bytes_hex_length raw) as H. rewrite Hh, Hlen in H. lia. }
    exists raw. rewrite Hr, (pad_guid_exact raw Hraw).
    split; [reflexivity | exact Hh].
  - intros g Hg. unfold to_hex. split.
    + rewrite bytes_hex_length, Hg. reflexivity.
    + apply bytes_hex_lower.
Qed.

Lemma hex_roundtrip_witness :
  (exists g, from_hex "aabbccddeeff" = Ok g /\ to_hex g = "aabbccddeeff"%string)
  /\ String.length (to_hex [x00; x01; x00; x02; x00; x03]) = 12.
Proof.
  destruct hex_roundtrip as [Hs Hg]. split.
  - apply Hs; reflexivity.
  - apply (Hg [x00; x01; x00; x02; x00; x03]). reflexivity.
Defined.

End HexCodec.


(** ** Authentication primitive: acceptance, tag lengths, error order *)

Section DataCryptoCoverage.

Import data_crypto.

Lemma compute_packet_hmac_bad_guid (guid payload key : bytes) :
  List.length guid <> 6 ->
  compute_packet_hmac guid payload key = Raise (guid_length_error guid).
Proof.
  intros Hg. unfold compute_packet_hmac.
  now rewrite (proj2 (Nat.eqb_neq _ _) Hg).
Qed.

Lemma compute_packet_hmac_bad_key (guid payload key : bytes) :
  List.length guid = 6 -> List.length key <> 32 ->
  compute_packet_hmac guid payload key = Raise (key_length_error key).
Proof.
  intros Hg Hk. unfold compute_packet_hmac.
  rewrite (proj2 (Nat.eqb_eq _ _) Hg). simpl negb. cbv iota.
  now apply compute_hmac_bad_key.
Qed.

Lemma slice_to_length {A} (l : list A) (stop : Z) :
  Z.of_nat (List.length (slice_to l stop))
  = (if stop <? 0
     then Z.max 0 (Z.of_nat (List.length l) + stop)
     else Z.min stop (Z.of_nat (List.length l)))%Z.
Proof.
  unfold slice_to. destruct (Z.ltb_spec stop 0); rewrite length_firstn; lia.
Qed.


(** X2. [validate_packet_hmac] answers [True] exactly when the candidate
    is the tag that [compute_packet_hmac] returns for the same GUID,
    payload and key. *)
Theorem validate_packet_hmac_accepts (guid payload key expected : bytes) :
  validate_packet_hmac guid payload key expected = Ok true
  <-> compute_packet_hmac guid payload key = Ok expected.
Proof.
  rewrite validate_packet_hmac_eq.
  destruct (Nat.eqb_spec (List.length guid) 6) as [Hg|Hg].
  - destruct (Nat.eqb_spec (List.length key) 32) as [Hk|Hk]; cbn [andb].
    + rewrite compute_packet_hmac_ok by assumption.
      generalize (firstn 16 (hashes.hmac_sha256 key (guid ++ payload))).
      intros tag. split; intros H.
      * injection H as H. apply compare_digest_true_iff in H. now subst.
      * injection H as <-. now rewrite compare_digest_refl.
    + rewrite compute_packet_hmac_bad_key by assumption. split; discriminate.
  - rewrite compute_packet_hmac_bad_guid by assumption. split; discriminate.
Qed.



(** X4. Tags of different lengths agree on their common part: the tag
    for a shorter non-negative length is a prefix of the tag for a
    longer one. *)
Theorem compute_hmac_prefix
    (data key short long : bytes) (t1 t2 : Z) :
  (0 <= t1 <= t2)%Z ->
  compute_hmac data key t1 = Ok short ->
  compute_hmac data key t2 = Ok long ->
  short = firstn (Z.to_nat t1) long.
Proof.
  intros Ht H1 H2.
  destruct (Nat.eq_dec (List.length key) 32) as [Hk|Hk];
    [|rewrite compute_hmac_bad_key in H1 by assumption; discriminate].
  destruct (Z_lt_le_dec 32 t2) as [Hb|Hb];
    [rewrite compute_hmac_bad_tag in H2 by assumption; discriminate|].
  rewrite compute_hmac_ok in H1, H2 by (assumption || lia).
  injection H1 as <-. injection H2 as <-.
  rewrite !slice_to_nonneg by lia.
  rewrite firstn_firstn. f_equal. lia.
Qed.

Lemma compute_hmac_prefix_witness :
  firstn 8 (hashes.hmac_sha256 (repeat x00 32) [x74])
  = firstn 8 (firstn 16 (hashes.hmac_sha256 (repeat x00 32) [x74])).
Proof.
  apply (compute_hmac_prefix [x74] (repeat x00 32) _ _ 8 16).
  - lia.
  - apply compute_hmac_ok; [reflexivity | lia].
  - apply compute_hmac_ok; [reflexivity | lia].
Defined.

(** X5. A candidate whose length is not the tag length is never
    accepted: [validate_hmac_constant_time] answers [False] for it when
    the tag length is not negative, and [validate_packet_hmac] answers
    [False] for every candidate that is not 16 bytes long. *)
Theorem wrong_length_candidate_rejected
    (data key expected : bytes) (truncate_to : Z) (guid payload : bytes) :
  ((0 <= truncate_to)%Z ->
   Z.of_nat (List.length expected) <> truncate_to ->
   validate_hmac_constant_time data key expected truncate_to = Ok false)
  /\ (List.length expected <> 16 ->
      validate_packet_hmac guid payload key expected = Ok false).
Proof.
  split.
  - intros Ht Hlen. rewrite validate_hmac_constant_time_eq.
    destruct (Nat.eqb_spec (List.length key) 32) as [Hk|Hk]; [|reflexivity].
    destruct (Z.leb_spec truncate_to 32) as [Hb|Hb]; [|reflexivity].
    cbn [andb].
    destruct (compare_digest _ expected) eqn:Hc; [|reflexivity].
    apply compare_digest_true_iff in Hc. exfalso. apply Hlen.
    rewrite <- Hc, slice_to_length, hmac_sha256_length.
    destruct (Z.ltb_spec truncate_to 0); lia.
  - intros Hlen. rewrite validate_packet_hmac_eq.
    destruct (compare_digest _ expected) eqn:Hc;
      [|now rewrite andb_false_r].
    apply compare_digest_true_iff in Hc. exfalso. apply Hlen.
    rewrite <- Hc, length_firstn, hmac_sha256_length. reflexivity.
Qed.

Lemma wrong_length_candidate_rejected_witness :
  validate_hmac_constant_time [x74] (repeat x00 32) (repeat x00 15) 16
  = Ok false
  /\ validate_packet_hmac (repeat x01 6) [x74] (repeat x00 32) (repeat x00 17)
     = Ok false.
Proof.
  destruct (wrong_length_candidate_rejected
              [x74] (repeat x00 32) (repeat x00 15) 16 [] []) as [H _].
  destruct (wrong_length_candidate_rejected
              [] (repeat x00 32) (repeat x00 17) 0 (repeat x01 6) [x74])
    as [_ H'].
  split; [apply H | apply H']; simpl; lia.
Defined.

(** X6. [compute_packet_hmac] checks the GUID before the key: a GUID
    that is not 6 bytes long gives the GUID [ValueError] whatever the key
    is; a 6-byte GUID with a key that is not 32 bytes long gives the key
    [ValueError]; otherwise the result is the 16-byte tag that
    [compute_hmac] returns on the GUID followed by the payload. *)
Theorem compute_packet_hmac_cases (guid payload key : bytes) :
  (List.length guid <> 6 ->
   compute_packet_hmac guid payload key = Raise (guid_length_error guid))
  /\ (List.length guid = 6 -> List.length key <> 32 ->
      compute_packet_hmac guid payload key = Raise (key_length_error key))
  /\ (List.length guid = 6 -> List.length key = 32 ->
      exists mac,
        compute_packet_hmac guid payload key = Ok mac
        /\ List.length mac = 16
        /\ compute_hmac (guid ++ payload) key 16 = Ok mac).
Proof.
  split; [apply compute_packet_hmac_bad_guid|].
  split; [apply compute_packet_hmac_bad_key|].
  intros Hg Hk. eexists.
  split; [apply compute_packet_hmac_ok; assumption|].
  split; [rewrite length_firstn, hmac_sha256_length; reflexivity|].
  rewrite compute_hmac_ok by (assumption || lia). reflexivity.
Qed.

Lemma compute_packet_hmac_cases_witness :
  compute_packet_hmac (repeat x01 5) [x74] [x6b]
  = Raise (ValueError "GUID must be 6 bytes, got 5")
  /\ compute_packet_hmac (repeat x01 6) [x74] [x6b]
     = Raise (ValueError "Key must be 32 bytes, got 1")
  /\ exists mac,
       compute_packet_hmac (repeat x01 6) [x74] (repeat x00 32) = Ok mac
       /\ List.length mac = 16
       /\ compute_hmac (repeat x01 6 ++ [x74]) (repeat x00 32) 16 = Ok mac.
Proof.
  split; [|split].
  - destruct (compute_packet_hmac_cases (repeat x01 5) [x74] [x6b]) as (H & _).
    apply H. simpl. lia.
  - destruct (compute_packet_hmac_cases (repeat x01 6) [x74] [x6b])
      as (_ & H & _).
    apply H; simpl; lia.
  - destruct (compute_packet_hmac_cases (repeat x01 6) [x74] (repeat x00 32))
      as (_ & _ & H).
    apply H; reflexivity.
Defined.

End DataCryptoCoverage.

(** ** Identifier normalisation: closed form and collisions *)

Section PadGuidCoverage.

Import guid_factory packet packet_builder.

Lemma firstn_repeat_min {A} (x : A) (k n : nat) :
  firstn k (repeat x n) = repeat x (Nat.min k n).
Proof.
  revert n. induction k as [|k IH]; intros [|n]; simpl; try reflexivity.
  now rewrite IH.
Qed.

Lemma pad_guid_firstn (b : bytes) :
  pad_guid b = firstn 6 (b ++ repeat x00 6).
Proof.
  unfold pad_guid.
  destruct (Nat.eqb_spec (List.length b) 6) as [E|NE].
  - now rewrite firstn_app_exact.
  - destruct (Nat.ltb_spec (List.length b) 6) as [L|G].
    + rewrite firstn_app, firstn_all2 by lia. f_equal.
      rewrite firstn_repeat_min. f_equal. lia.
    + rewrite firstn_app. replace (6 - List.length b) with 0 by lia.
      simpl. now rewrite app_nil_r.
Qed.

(** X7. [pad_guid] is the first 6 bytes of the input followed by six
    zero bytes, whatever the length of the input; applying it twice is
    the same as applying it once. *)
Theorem pad_guid_closed_form (b : bytes) :
  pad_guid b = firstn 6 (b ++ repeat x00 6)
  /\ pad_guid (pad_guid b) = pad_guid b.
Proof.
  split; [apply pad_guid_firstn|].
  apply pad_guid_exact, pad_guid_length.
Qed.

Lemma pad_guid_zeros (b : bytes) (n : nat) :
  pad_guid (b ++ repeat x00 n) = pad_guid b.
Proof.
  rewrite !pad_guid_firstn, <- app_assoc, <- repeat_app.
  rewrite !firstn_app, !firstn_repeat_min. f_equal. f_equal. lia.
Qed.

Lemma pad_guid_long (b c : bytes) :
  6 <= List.length b -> pad_guid (b ++ c) = pad_guid b.
Proof.
  intros H. rewrite !pad_guid_firstn, <- app_assoc.
  rewrite !firstn_app. replace (6 - List.length b) with 0 by lia.
  reflexivity.
Qed.

(** X8. Identifiers collide under normalisation, and the builder cannot
    tell them apart: zero bytes appended to an identifier, and anything
    appended to an identifier of 6 bytes or more, leave the result of
    [build_and_serialize] unchanged. *)
Theorem build_and_serialize_identifier_collisions
    (b c payload key : bytes) (n : nat) :
  build_and_serialize (b ++ repeat x00 n) payload key
  = build_and_serialize b payload key
  /\ (6 <= List.length b ->
      build_and_serialize (b ++ c) payload key
      = build_and_serialize b payload key).
Proof.
  unfold build_and_serialize, build_packet. cbv zeta. split.
  - now rewrite pad_guid_zeros.
  - intros H. now rewrite pad_guid_long.
Qed.

Lemma build_and_serialize_identifier_collisions_witness :
  build_and_serialize ([x01; x02] ++ repeat x00 1) [x74] (repeat x00 32)
  = build_and_serialize [x01; x02] [x74] (repeat x00 32)
  /\ build_and_serialize (repeat x01 6 ++ [x09]) [x74] (repeat x00 32)
     = build_and_serialize (repeat x01 6) [x74] (repeat x00 32).
Proof.
  split.
  - destruct (build_and_serialize_identifier_collisions
                [x01; x02] [] [x74] (repeat x00 32) 1) as [H _].
    exact H.
  - destruct (build_and_serialize_identifier_collisions
                (repeat x01 6) [x09] [x74] (repeat x00 32) 0) as [_ H].
    apply H. simpl. lia.
Defined.

End PadGuidCoverage.

(** ** Packets on the wire: lengths, unambiguity, exact decoding *)

Section PacketCoverage.

Import packet.

Lemma Ok_inj {A} (a b : A) : Ok a = Ok b -> a = b.
Proof. intros H. now injection H. Qed.

Lemma mkPacket_inj (m g p m' g' p' : bytes) :
  mkPacket m g p = mkPacket m' g' p' -> m = m' /\ g = g' /\ p = p'.
Proof. intros H. now injection H. Qed.

Lemma to_bytes_length (pk : Packet) :
  well_formed pk -> List.length (to_bytes pk) = 22 + List.length (payload pk).
Proof.
  intros [Hm Hg]. unfold to_bytes. rewrite !length_app, Hm, Hg. lia.
Qed.

(** X9. For a well-formed packet [__len__] is the number of bytes that
    [to_bytes] produces, and a packet returned by [from_bytes] has the
    length of the datagram it was read from. *)
Theorem len_is_wire_length :
  (forall pk : Packet, well_formed pk -> len pk = List.length (to_bytes pk))
  /\ (forall (data : bytes) (pk : Packet),
        from_bytes data = Ok (Some pk) -> len pk = List.length data).
Proof.
  split.
  - intros pk Hwf. rewrite to_bytes_length by assumption. reflexivity.
  - intros data pk H. apply from_bytes_inv in H. destruct H as [Hwf <-].
    rewrite to_bytes_length by assumption. reflexivity.
Qed.

Lemma len_is_wire_length_witness :
  len (mkPacket (repeat x00 16) (repeat x01 6) [x74; x65; x73; x74]) = 26
  /\ len (mkPacket (repeat x00 16) (repeat x00 6) []) = List.length (repeat x00 22).
Proof.
  destruct len_is_wire_length as [Hw Hp]. split.
  - apply (Hw (mkPacket (repeat x00 16) (repeat x01 6) [x74; x65; x73; x74])).
    split; reflexivity.
  - apply (Hp (repeat x00 22)). reflexivity.
Defined.

(** X10. The wire format is unambiguous on well-formed packets: two
    well-formed packets with the same [to_bytes] image are the same
    packet. *)
Theorem to_bytes_injective (p q : Packet) :
  well_formed p -> well_formed q -> to_bytes p = to_bytes q -> p = q.
Proof.
  intros Hp Hq Heq.
  pose proof (from_bytes_to_bytes p Hp) as H1.
  pose proof (from_bytes_to_bytes q Hq) as H2.
  rewrite Heq, H2 in H1. now injection H1.
Qed.

Lemma to_bytes_injective_witness :
  mkPacket (firstn 16 (repeat xaa 22)) (skipn 16 (repeat xaa 22)) []
  = mkPacket (repeat xaa 16) (repeat xaa 6) [].
Proof.
  apply to_bytes_injective; [split; reflexivity | split; reflexivity |].
  reflexivity.
Defined.

(** X11. [from_bytes] returns a packet exactly when the input is the
    [to_bytes] image of that packet and the packet is well-formed; it
    never raises. *)
Theorem from_bytes_exact (data : bytes) :
  (forall pk : Packet,
      from_bytes data = Ok (Some pk) <-> well_formed pk /\ to_bytes pk = data)
  /\ (from_bytes data = Ok None
      \/ exists pk, from_bytes data = Ok (Some pk)).
Proof.
  split.
  - intros pk. split; [apply from_bytes_inv|].
    intros [Hwf <-]. now apply from_bytes_to_bytes.
  - destruct (Nat.lt_ge_cases (List.length data) 22) as [Hs|Hl].
    + left. now apply from_bytes_short.
    + right. eexists. now apply from_bytes_long.
Qed.

End PacketCoverage.

(** ** Pipeline: key errors, wire layout, exact acceptance, tampering *)

Section PipelineCoverage.

Import packet packet_builder authenticity.

Lemma build_packet_bad_key (identifier payload key : bytes) :
  List.length key <> 32 ->
  build_packet identifier payload key
  = Raise (data_crypto.key_length_error key).
Proof.
  intros Hk. unfold build_packet. cbv zeta.
  rewrite compute_packet_hmac_bad_key
    by (apply pad_guid_length || assumption).
  reflexivity.
Qed.

Lemma validate_hmac_true_iff (pk : Packet) (key : bytes) :
  validate_hmac pk key = Ok true <-> authentic pk key.
Proof.
  unfold validate_hmac, authentic. rewrite validate_packet_hmac_eq.
  generalize (firstn 16 (hashes.hmac_sha256 key (guid pk ++ payload pk))).
  intros tag. split.
  - intros H. injection H as H.
    rewrite !andb_true_iff, !Nat.eqb_eq, compare_digest_true_iff in H.
    intuition congruence.
  - intros (Hg & Hk & ->).
    rewrite (proj2 (Nat.eqb_eq _ _) Hg), (proj2 (Nat.eqb_eq _ _) Hk).
    now rewrite compare_digest_refl.
Qed.

Lemma build_packet_self_iff (pk : Packet) (key : bytes) :
  build_packet (guid pk) (payload pk) key = Ok pk <-> authentic pk key.
Proof.
  unfold authentic. split.
  - intros H.
    destruct (Nat.eq_dec (List.length key) 32) as [Hk|Hk];
      [|rewrite build_packet_bad_key in H by assumption; discriminate].
    rewrite build_packet_ok in H by assumption.
    destruct pk as [m g p]. cbn [hmac guid payload] in *.
    apply Ok_inj, mkPacket_inj in H. destruct H as (Hm & Hg & _).
    assert (Hlen : List.length g = 6)
      by (rewrite <- Hg; apply pad_guid_length).
    rewrite Hg in Hm. auto.
  - intros (Hg & Hk & Hm). rewrite build_packet_ok by assumption.
    rewrite (pad_guid_exact _ Hg), <- Hm. now destruct pk.
Qed.

(** X12. [build_packet] succeeds exactly under a key of 32 bytes; under
    any other key it and [build_and_serialize] raise the key-length
    [ValueError], whatever the identifier and the payload are. *)
Theorem build_packet_key_error (identifier payload key : bytes) :
  ((exists pk, build_packet identifier payload key = Ok pk)
   <-> List.length key = 32)
  /\ (List.length key <> 32 ->
      build_packet identifier payload key
      = Raise (data_crypto.key_length_error key)
      /\ build_and_serialize identifier payload key
         = Raise (data_crypto.key_length_error key)).
Proof.
  split.
  - split.
    + intros [pk H].
      destruct (Nat.eq_dec (List.length key) 32) as [Hk|Hk]; [assumption|].
      rewrite build_packet_bad_key in H by assumption. discriminate.
    + intros Hk. rewrite build_packet_ok by assumption. now eexists.
  - intros Hk. unfold build_and_serialize.
    now rewrite build_packet_bad_key by assumption.
Qed.

Lemma build_packet_key_error_witness :
  build_packet [x01] [x74] (repeat x00 31)
  = Raise (ValueError "Key must be 32 bytes, got 31")
  /\ build_and_serialize [x01] [x74] (repeat x00 31)
     = Raise (ValueError "Key must be 32 bytes, got 31").
Proof.
  destruct (build_packet_key_error [x01] [x74] (repeat x00 31)) as [_ H].
  apply H. simpl. lia.
Defined.

(** X13. Wire bytes returned by [build_and_serialize] are 22 bytes longer
    than the payload; bytes 16 to 22 are the padded identifier, the bytes
    from 22 on are the payload, and the first 16 bytes are the tag that
    [compute_hmac] returns on the rest under the same key. *)
Theorem build_and_serialize_layout (identifier payload key wire : bytes) :
  build_and_serialize identifier payload key = Ok wire ->
  List.length wire = 22 + List.length payload
  /\ firstn 6 (skipn 16 wire) = guid_factory.pad_guid identifier
  /\ skipn 22 wire = payload
  /\ data_crypto.compute_hmac (skipn 16 wire) key 16 = Ok (firstn 16 wire).
Proof.
  intros H. unfold build_and_serialize in H.
  destruct (Nat.eq_dec (List.length key) 32) as [Hk|Hk];
    [|rewrite build_packet_bad_key in H by assumption; discriminate].
  rewrite build_packet_ok in H by assumption. cbn [bind] in H.
  apply Ok_inj in H. subst wire. unfold to_bytes.
  cbn [hmac guid packet.payload].
  pose proof (pad_guid_length identifier) as Hg.
  pose proof (firstn_16_hmac_length
                key (guid_factory.pad_guid identifier ++ payload)) as Hm.
  remember (guid_factory.pad_guid identifier) as g eqn:Eg.
  remember (firstn 16 (hashes.hmac_sha256 key (g ++ payload))) as m eqn:Em.
  split; [rewrite !length_app; lia|].
  rewrite (skipn_app_exact 16 m) by assumption.
  split; [now apply firstn_app_exact|].
  split; [apply (slice_payload m g payload); assumption|].
  rewrite (firstn_app_exact 16 m) by assumption.
  rewrite compute_hmac_ok by (assumption || lia). now subst m.
Qed.

Lemma build_and_serialize_layout_witness :
  exists wire,
    build_and_serialize [x01; x02] [x74; x65] (repeat x00 32) = Ok wire
    /\ List.length wire = 24
    /\ firstn 6 (skipn 16 wire) = [x01; x02; x00; x00; x00; x00]
    /\ skipn 22 wire = [x74; x65].
Proof.
  eexists. split; [reflexivity|].
  destruct (build_and_serialize_layout
              [x01; x02] [x74; x65] (repeat x00 32) _ eq_refl)
    as (Hl & Hg & Hp & _).
  repeat split; assumption.
Defined.

Lemma parse_and_validate_authentic (data key : bytes) (pk : Packet) :
  parse_and_validate data key = Ok (Some pk)
  <-> authentic pk key /\ to_bytes pk = data.
Proof.
  split.
  - intros H. apply parse_and_validate_inv in H. destruct H as [Hp Hv].
    apply from_bytes_inv in Hp. apply validate_hmac_true_iff in Hv. tauto.
  - intros [Ha <-].
    assert (Hwf : well_formed pk).
    { destruct Ha as (Hg & _ & Hm). split; [|assumption].
      rewrite Hm. apply firstn_16_hmac_length. }
    unfold parse_and_validate, parse_packet.
    rewrite from_bytes_to_bytes by assumption. cbn [bind].
    rewrite (proj2 (validate_hmac_true_iff pk key) Ha). reflexivity.
Qed.

(** X14. [validate_hmac] answers [True] for a packet and a key exactly
    when [build_packet], given the packet's identifier and payload and
    the key, returns that very packet. *)
Theorem validate_hmac_accepts_built (pk : Packet) (key : bytes) :
  validate_hmac pk key = Ok true
  <-> build_packet (guid pk) (payload pk) key = Ok pk.
Proof.
  now rewrite validate_hmac_true_iff, build_packet_self_iff.
Qed.

(** X15. [parse_and_validate] returns a packet exactly when the input is
    the [to_bytes] image of that packet and [build_packet] makes that
    packet from its identifier, its payload and the key: what the
    receiver accepts is what a sender holding the key builds, and
    nothing else. *)
Theorem parse_and_validate_accepts (data key : bytes) (pk : Packet) :
  parse_and_validate data key = Ok (Some pk)
  <-> build_packet (guid pk) (payload pk) key = Ok pk /\ to_bytes pk = data.
Proof.
  rewrite build_packet_self_iff. apply parse_and_validate_authentic.
Qed.

(** X16. [parse_and_validate] never raises: on every input and every key
    it returns [None] or a packet.  It returns [None] for an input
    shorter than 22 bytes and for every input when the key is not 32
    bytes long. *)
Theorem parse_and_validate_rejections (data key : bytes) :
  (parse_and_validate data key = Ok None
   \/ exists pk, parse_and_validate data key = Ok (Some pk))
  /\ (List.length data < 22 -> parse_and_validate data key = Ok None)
  /\ (List.length key <> 32 -> parse_and_validate data key = Ok None).
Proof.
  unfold parse_and_validate, parse_packet.
  destruct (Nat.lt_ge_cases (List.length data) 22) as [Hs|Hl].
  - rewrite from_bytes_short by assumption. cbn [bind].
    repeat split; auto.
  - rewrite from_bytes_long by assumption. cbn [bind].
    unfold validate_hmac. rewrite validate_packet_hmac_eq. cbn [bind].
    split; [|split].
    + match goal with
      | |- context [if negb ?b then _ else _] => destruct b
      end; cbn [negb]; eauto.
    + lia.
    + intros Hk. rewrite (proj2 (Nat.eqb_neq _ _) Hk).
      now rewrite andb_false_r.
Qed.

Lemma parse_and_validate_rejections_witness :
  parse_and_validate (repeat x00 21) (repeat x00 32) = Ok None
  /\ parse_and_validate (repeat x00 30) (repeat x00 31) = Ok None.
Proof.
  split.
  - destruct (parse_and_validate_rejections (repeat x00 21) (repeat x00 32))
      as (_ & H & _).
    apply H. simpl. lia.
  - destruct (parse_and_validate_rejections (repeat x00 30) (repeat x00 31))
      as (_ & _ & H).
    apply H. simpl. lia.
Defined.

(** X17. A change to the mac field is always detected: when the first
    16 bytes of wire bytes made by [build_and_serialize] are replaced by
    any other 16 bytes, [parse_and_validate] with the same key returns
    [None]. *)
Theorem tampered_mac_rejected (identifier payload key wire mac' : bytes) :
  build_and_serialize identifier payload key = Ok wire ->
  List.length mac' = 16 ->
  mac' <> firstn 16 wire ->
  parse_and_validate (mac' ++ skipn 16 wire) key = Ok None.
Proof.
  intros H Hlen Hne. unfold build_and_serialize in H.
  destruct (Nat.eq_dec (List.length key) 32) as [Hk|Hk];
    [|rewrite build_packet_bad_key in H by assumption; discriminate].
  rewrite build_packet_ok in H by assumption. cbn [bind] in H.
  apply Ok_inj in H. subst wire. unfold to_bytes in *.
  cbn [hmac guid packet.payload] in *.
  pose proof (pad_guid_length identifier) as Hg.
  pose proof (firstn_16_hmac_length
                key (guid_factory.pad_guid identifier ++ payload)) as Hm.
  remember (guid_factory.pad_guid identifier) as g eqn:Eg.
  remember (firstn 16 (hashes.hmac_sha256 key (g ++ payload))) as m eqn:Em.
  rewrite (firstn_app_exact 16 m) in Hne by assumption.
  rewrite (skipn_app_exact 16 m) by assumption.
  unfold parse_and_validate, parse_packet.
  change (mac' ++ g ++ payload) with (to_bytes (mkPacket mac' g payload)).
  rewrite (from_bytes_to_bytes (mkPacket mac' g payload))
    by (split; assumption).
  cbn [bind]. unfold validate_hmac. cbn [hmac guid packet.payload].
  rewrite validate_packet_hmac_eq, <- Em. cbn [bind].
  destruct (compare_digest m mac') eqn:Hc.
  - apply compare_digest_true_iff in Hc. congruence.
  - now rewrite andb_false_r.
Qed.

Lemma tampered_mac_rejected_witness :
  parse_and_validate
    (repeat x00 16 ++ [x01; x02; x00; x00; x00; x00; x74])
    (repeat x00 32)
  = Ok None.
Proof.
  apply (tampered_mac_rejected [x01; x02] [x74] (repeat x00 32)
           (firstn 16 (hashes.hmac_sha256
                         (repeat x00 32) [x01; x02; x00; x00; x00; x00; x74])
              ++ [x01; x02; x00; x00; x00; x00; x74])
           (repeat x00 16)).
  - reflexivity.
  - reflexivity.
  - vm_compute. discriminate.
Defined.

End PipelineCoverage.

(** ** Hex codec: printing then reading, and reading then printing *)

Section HexCoverage.

Import hex_text guid_factory packet.

(** The two digits printed for an octet are hex digits, and read back
    they give the octet. *)
Lemma hex_of_byte_read_back (x : byte) :
  let c := hexdigit (Z.shiftr (Z_of_byte x) 4) in
  let d := hexdigit (Z.land (Z_of_byte x) 15) in
  is_hex_digit c = true
  /\ is_hex_digit d = true
  /\ byte_of_Z (Z.of_N (N.shiftl (PyLong_DigitValue c) 4 + PyLong_DigitValue d))
     = x.
Proof. destruct x; repeat split; reflexivity. Qed.

Lemma fromhex_scan_hex (b : bytes) (pos : nat) :
  fromhex_scan pos (bytes_hex b) = Ok b.
Proof.
  revert pos. induction b as [|x b IH]; intros pos; [reflexivity|].
  cbn [bytes_hex]. rewrite fromhex_scan_two.
  destruct (hex_of_byte_read_back x) as (Hc & Hd & Hx).
  rewrite (hex_digit_not_space _ Hc), Hc, Hd, IH. cbn [bind].
  now rewrite Hx.
Qed.

Lemma find_non_ascii_hex (b : bytes) (pos : nat) :
  find_non_ascii pos (bytes_hex b) = None.
Proof.
  revert pos. induction b as [|x b IH]; intros pos; [reflexivity|].
  cbn [bytes_hex find_non_ascii].
  destruct (hex_of_byte_read_back x) as (Hc & Hd & _).
  now rewrite (hex_digit_ascii _ Hc), (hex_digit_ascii _ Hd).
Qed.

Lemma bytes_fromhex_hex (b : bytes) : bytes_fromhex (bytes_hex b) = Ok b.
Proof.
  unfold bytes_fromhex. rewrite find_non_ascii_hex. apply fromhex_scan_hex.
Qed.

(** X18. Reading back what [to_hex] prints gives the padded input:
    [from_hex (to_hex g)] is [pad_guid g] for every byte string, hence
    [g] itself for a 6-byte identifier; and [to_hex] never prints two
    byte strings alike. *)
Theorem from_hex_to_hex :
  (forall g : bytes, from_hex (to_hex g) = Ok (pad_guid g))
  /\ (forall g : bytes, List.length g = 6 -> from_hex (to_hex g) = Ok g)
  /\ (forall a b : bytes, to_hex a = to_hex b -> a = b).
Proof.
  assert (H : forall g, from_hex (to_hex g) = Ok (pad_guid g)).
  { intros g. unfold from_hex, to_hex. now rewrite bytes_fromhex_hex. }
  split; [exact H|]. split.
  - intros g Hg. now rewrite H, pad_guid_exact.
  - unfold to_hex. intros a b Heq.
    apply Ok_inj. now rewrite <- (bytes_fromhex_hex a), Heq, bytes_fromhex_hex.
Qed.

Lemma from_hex_to_hex_witness :
  from_hex (to_hex [xaa; xbb; xcc; xdd; xee; xff])
  = Ok [xaa; xbb; xcc; xdd; xee; xff].
Proof.
  destruct from_hex_to_hex as (_ & H & _). apply H. reflexivity.
Defined.

Lemma bytes_hex_app (a b : bytes) :
  bytes_hex (a ++ b) = (bytes_hex a ++ bytes_hex b)%string.
Proof. induction a as [|x a IH]; simpl; [reflexivity | now rewrite IH]. Qed.

Lemma bytes_hex_firstn (n : nat) (b : bytes) :
  bytes_hex (firstn n b) = String.substring 0 (2 * n) (bytes_hex b).
Proof.
  revert b. induction n as [|n IH]; intros b.
  - simpl. now destruct (bytes_hex b).
  - destruct b as [|x b]; [reflexivity|].
    replace (2 * S n) with (S (S (2 * n))) by lia.
    cbn [firstn bytes_hex String.substring]. now rewrite IH.
Qed.

(** X19. What [to_hex] prints for the result of [from_hex] is read off
    the input: it is the first 12 characters of the input, without its
    whitespace and in lower case, followed by twelve zeros. *)
Theorem to_hex_from_hex (s : string) (g : bytes) :
  from_hex s = Ok g ->
  to_hex g
  = String.substring 0 12 (normalized s ++ "000000000000")%string.
Proof.
  intros H.
  destruct (from_hex_outcome s) as [[_ (raw & Hr & _ & Hh)] | [_ (n & Hr)]];
    rewrite Hr in H; [|discriminate].
  apply Ok_inj in H. subst g. unfold to_hex.
  rewrite pad_guid_firstn, (bytes_hex_firstn 6), bytes_hex_app, Hh.
  reflexivity.
Qed.

Lemma to_hex_from_hex_witness :
  to_hex [xab; xcd; x00; x00; x00; x00] = "abcd00000000"%string.
Proof.
  apply (to_hex_from_hex " AB cd"). reflexivity.
Defined.

(** X20. [from_hex] reads whitespace and letter case away: two accepted
    strings that are equal once whitespace is removed and letters are
    lowered decode to the same identifier. *)
Theorem from_hex_ignores_layout (s s' : string) :
  hex_pairs s -> hex_pairs s' -> normalized s = normalized s' ->
  from_hex s = from_hex s'.
Proof.
  intros Hs Hs' Heq.
  destruct (from_hex_outcome s) as [[_ (raw & Hr & _ & Hh)] | [Hn _]];
    [|contradiction].
  destruct (from_hex_outcome s') as [[_ (raw' & Hr' & _ & Hh')] | [Hn _]];
    [|contradiction].
  rewrite Hr, Hr'. do 2 f_equal.
  apply Ok_inj.
  now rewrite <- (bytes_fromhex_hex raw), Hh, Heq, <- Hh', bytes_fromhex_hex.
Qed.

Lemma from_hex_ignores_layout_witness :
  from_hex "0A 0b" = from_hex "0a0B ".
Proof.
  apply from_hex_ignores_layout.
  - apply hex_pairs_pair; [reflexivity | reflexivity |].
    apply hex_pairs_space; [reflexivity|].
    apply hex_pairs_pair; [reflexivity | reflexivity |].
    apply hex_pairs_end.
  - apply hex_pairs_pair; [reflexivity | reflexivity |].
    apply hex_pairs_pair; [reflexivity | reflexivity |].
    apply hex_pairs_space; [reflexivity|].
    apply hex_pairs_end.
  - reflexivity.
Defined.

(** X21. [__repr__] shows the identifier, the size of the payload and
    the first four bytes of the mac, and nothing else: two packets that
    agree on these have the same [repr]. *)
Theorem repr_shows (p q : Packet) :
  firstn 4 (hmac p) = firstn 4 (hmac q) ->
  guid p = guid q ->
  List.length (payload p) = List.length (payload q) ->
  repr p = repr q.
Proof.
  intros Hm Hg Hp. unfold repr.
  change 8 with (2 * 4). rewrite <- !bytes_hex_firstn.
  now rewrite Hm, Hg, Hp.
Qed.

Lemma repr_shows_witness :
  repr (mkPacket (repeat xaa 16) (repeat xbb 6) [x74])
  = repr (mkPacket (repeat xaa 4 ++ repeat x00 12) (repeat xbb 6) [x00]).
Proof.
  apply repr_shows; reflexivity.
Defined.

End HexCoverage.

(** ** UDP socket object: what is sent, what is accepted, what is kept *)

Section UdpSocketCoverage.

Import packet packet_builder authenticity udp_socket.

#[local] Arguments parse_and_validate : simpl never.
#[local] Arguments build_and_serialize : simpl never.

Lemma build_and_serialize_of_authentic (pk : Packet) (key : bytes) :
  authentic pk key ->
  build_and_serialize (guid pk) (payload pk) key = Ok (to_bytes pk).
Proof.
  intros Ha. unfold build_and_serialize.
  now rewrite (proj2 (build_packet_self_iff pk key) Ha).
Qed.

Lemma parse_and_validate_built_wire (g p key wire : bytes) :
  build_and_serialize g p key = Ok wire ->
  exists pk,
    parse_and_validate wire key = Ok (Some pk)
    /\ guid pk = guid_factory.pad_guid g
    /\ payload pk = p.
Proof.
  intros H. unfold build_and_serialize in H.
  destruct (Nat.eq_dec (List.length key) 32) as [Hk|Hk];
    [|rewrite build_packet_bad_key in H by assumption; discriminate].
  rewrite build_packet_ok in H by assumption.
  cbn [Py.bind] in H. apply Ok_inj in H. subst wire.
  exists (mkPacket
            (firstn 16 (hashes.hmac_sha256 key (guid_factory.pad_guid g ++ p)))
            (guid_factory.pad_guid g) p).
  split; [|split; reflexivity].
  apply parse_and_validate_authentic. split; [|reflexivity].
  split; [apply pad_guid_length | split; [assumption | reflexivity]].
Qed.

Lemma run_receive_packet_no_socket
    (os : system) (p : Z) (key : bytes) (bufsize : Z) :
  run os (receive_packet key bufsize) (mkUDPSocket p None)
  = (Raises (RuntimeError "Socket not created"), mkUDPSocket p None, []).
Proof. reflexivity. Qed.

Lemma run_receive_packet_socket
    (os : system) (p : Z) (sk : socket_id) (key : bytes) (bufsize : Z) :
  run os (receive_packet key bufsize) (mkUDPSocket p (Some sk))
  = let r := os _ (recvfrom sk bufsize) [] in
    (match r with
     | Raises e => Raises e
     | Returns received =>
         match parse_and_validate (fst received) key with
         | Ok (Some pk) => Returns (guid pk, payload pk, snd received)
         | Ok None => Raises (Builtin (ValueError "Invalid packet received"))
         | Raise e => Raises (Builtin e)
         end
     end,
     mkUDPSocket p (Some sk),
     [Event _ (recvfrom sk bufsize) r]).
Proof.
  unfold run, receive_packet. cbn.
  destruct (os _ (recvfrom sk bufsize) []) as [[data a]|e]; cbn;
    [|reflexivity].
  destruct (parse_and_validate data key) as [[pk|]|e]; reflexivity.
Qed.

Lemma parse_and_validate_outcome (data key : bytes) :
  parse_and_validate data key = Ok None
  \/ exists pk, parse_and_validate data key = Ok (Some pk).
Proof.
  unfold parse_and_validate, parse_packet.
  destruct (Nat.lt_ge_cases (List.length data) 22) as [Hs|Hl].
  - rewrite from_bytes_short by assumption. now left.
  - rewrite from_bytes_long by assumption. cbn [Py.bind].
    unfold validate_hmac. rewrite validate_packet_hmac_eq. cbn [Py.bind].
    match goal with
    | |- context [if negb ?b then _ else _] => destruct b
    end; cbn [negb]; eauto.
Qed.

(** X22. Whatever the network delivers, [receive_packet] returns only
    what a holder of the key sent: when it returns [(guid, payload,
    addr)], it has made one call, [recvfrom] on its socket, that call
    returned a datagram from [addr], and the datagram is the result of
    [build_and_serialize] on that guid, that payload and the key.  The
    attributes of the object are as before. *)
Theorem receive_packet_returns_authentic
    (os : system) (self : UDPSocket) (key : bytes) (bufsize : Z)
    (g p : bytes) (a : address) :
  result_of (run os (receive_packet key bufsize) self) = Returns (g, p, a) ->
  exists sk data,
    socket self = Some sk
    /\ calls_of (run os (receive_packet key bufsize) self)
       = [Event _ (recvfrom sk bufsize) (Returns (data, a))]
    /\ build_and_serialize g p key = Ok data
    /\ self_after (run os (receive_packet key bufsize) self) = self.
Proof.
  destruct self as [pt [sk|]].
  - rewrite run_receive_packet_socket. cbv zeta.
    unfold result_of, calls_of, self_after. cbn [fst snd socket].
    destruct (os _ (recvfrom sk bufsize) []) as [[data a']|e];
      [|discriminate].
    cbn [fst snd].
    destruct (parse_and_validate data key) as [[pk|]|e] eqn:Hpv;
      try discriminate.
    intros H. injection H as <- <- <-.
    apply parse_and_validate_authentic in Hpv. destruct Hpv as [Ha <-].
    exists sk, (to_bytes pk). repeat split.
    now apply build_and_serialize_of_authentic.
  - rewrite run_receive_packet_no_socket. discriminate.
Qed.

Lemma receive_packet_returns_authentic_witness :
  exists sk data,
    socket (mkUDPSocket 50011 (Some 0)) = Some sk
    /\ calls_of (run (delivering loopback_wire ("127.0.0.1"%string, 50010%Z))
                     (receive_packet (repeat x00 32) default_buffer_size)
                     (mkUDPSocket 50011 (Some 0)))
       = [Event _ (recvfrom sk default_buffer_size)
                (Returns (data, ("127.0.0.1"%string, 50010%Z)))]
    /\ build_and_serialize
         (repeat x01 6) (ascii_bytes "test payload") (repeat x00 32)
       = Ok data
    /\ self_after (run (delivering loopback_wire ("127.0.0.1"%string, 50010%Z))
                       (receive_packet (repeat x00 32) default_buffer_size)
                       (mkUDPSocket 50011 (Some 0)))
       = mkUDPSocket 50011 (Some 0).
Proof.
  apply receive_packet_returns_authentic. vm_compute. reflexivity.
Defined.

(** X23. [receive_packet] fails in three ways.  Without a socket it
    raises [RuntimeError] and makes no call.  When [recvfrom] raises,
    that exception is passed on.  When [recvfrom] returns a datagram
    that [build_and_serialize] makes from no identifier and payload
    under the key, it raises [ValueError] with the text [Invalid packet
    received]: a rejected datagram is an exception at this layer.  The
    attributes of the object are as before in each case. *)
Theorem receive_packet_failures
    (os : system) (self : UDPSocket) (key : bytes) (bufsize : Z) :
  (socket self = None ->
   run os (receive_packet key bufsize) self
   = (Raises (RuntimeError "Socket not created"), self, []))
  /\ (forall (sk : socket_id) (e : exn),
        socket self = Some sk ->
        os _ (recvfrom sk bufsize) [] = Raises e ->
        run os (receive_packet key bufsize) self
        = (Raises e, self, [Event _ (recvfrom sk bufsize) (Raises e)]))
  /\ (forall (sk : socket_id) (data : bytes) (a : address),
        socket self = Some sk ->
        os _ (recvfrom sk bufsize) [] = Returns (data, a) ->
        (forall g p, build_and_serialize g p key <> Ok data) ->
        run os (receive_packet key bufsize) self
        = (Raises (Builtin (ValueError "Invalid packet received")), self,
           [Event _ (recvfrom sk bufsize) (Returns (data, a))])).
Proof.
  destruct self as [pt s]. cbn [socket]. split; [|split].
  - intros ->. apply run_receive_packet_no_socket.
  - intros sk e -> He. rewrite run_receive_packet_socket. cbv zeta.
    now rewrite He.
  - intros sk data a -> Hr Hno. rewrite run_receive_packet_socket. cbv zeta.
    rewrite Hr. cbn [fst snd].
    destruct (parse_and_validate_outcome data key) as [Hn|[pk Hs]].
    + now rewrite Hn.
    + exfalso. apply parse_and_validate_authentic in Hs.
      destruct Hs as [Ha <-].
      apply (Hno (guid pk) (payload pk)).
      now apply build_and_serialize_of_authentic.
Qed.

Lemma receive_packet_failures_witness :
  run (delivering (repeat x00 21) ("127.0.0.1"%string, 50010%Z))
      (receive_packet (repeat x00 32) default_buffer_size)
      (init 50011)
  = (Raises (RuntimeError "Socket not created"), init 50011, [])
  /\ run (delivering (repeat x00 21) ("127.0.0.1"%string, 50010%Z))
         (receive_packet (repeat x00 32) default_buffer_size)
         (mkUDPSocket 50011 (Some 0))
     = (Raises (Builtin (ValueError "Invalid packet received")),
        mkUDPSocket 50011 (Some 0),
        [Event _ (recvfrom 0 default_buffer_size)
               (Returns (repeat x00 21, ("127.0.0.1"%string, 50010%Z)))]).
Proof.
  split.
  - destruct (receive_packet_failures
                (delivering (repeat x00 21) ("127.0.0.1"%string, 50010%Z))
                (init 50011) (repeat x00 32) default_buffer_size) as (H & _).
    apply H. reflexivity.
  - destruct (receive_packet_failures
                (delivering (repeat x00 21) ("127.0.0.1"%string, 50010%Z))
                (mkUDPSocket 50011 (Some 0)) (repeat x00 32)
                default_buffer_size) as (_ & _ & H).
    apply H; [reflexivity | reflexivity |].
    intros g p Hb.
    destruct (parse_and_validate_built_wire _ _ _ _ Hb) as (pk & Hpv & _).
    discriminate Hpv.
Defined.

(** Case analysis on the next outcome that the system gives in a run. *)
Ltac step_os os :=
  match goal with
  | |- context [os ?R ?c ?l] =>
      lazymatch l with context [os] => fail | _ => idtac end;
      lazymatch c with context [os] => fail | _ => idtac end;
      let r := fresh "r" in
      let Hr := fresh "Hr" in
      destruct (os R c l) as [r|r] eqn:Hr; cbn
  end.

Ltac step_exn :=
  match goal with
  | |- context [match ?e with AttributeError _ => _ | _ => _ end] =>
      is_var e; destruct e; cbn
  end.

Ltac run_cases os := repeat (first [step_os os | step_exn]).

(** A call that raised contradicts a system on which calls succeed. *)
Ltac never_raises Hok :=
  match goal with
  | H : ?os ?R ?c ?l = Raises _ |- _ =>
      let Hx := fresh in
      destruct (Hok R c l) as [? Hx]; rewrite Hx in H; discriminate H
  end.




Lemma run_ensure_socket_present
    (os : system) (has_reuseport : bool) (pt : Z) (sk : socket_id)
    (log : list event) :
  exec os (ensure_socket has_reuseport (mkUDPSocket pt (Some sk))) log
  = (Returns tt, mkUDPSocket pt (Some sk), log).
Proof. reflexivity. Qed.

(** The run of [send_packet] on an object that holds a socket. *)
Lemma run_send_packet_socket
    (os : system) (has_reuseport : bool) (pt : Z) (sk : socket_id)
    (g p key : bytes) (host : string) (port0 : Z) :
  run os (send_packet has_reuseport g p key host port0)
      (mkUDPSocket pt (Some sk))
  = match build_and_serialize g p key with
    | Ok data =>
        let r := os _ (sendto sk data (host, port0)) [] in
        (match r with Returns _ => Returns tt | Raises e => Raises e end,
         mkUDPSocket pt (Some sk),
         [Event _ (sendto sk data (host, port0)) r])
    | Raise e => (Raises (Builtin e), mkUDPSocket pt (Some sk), [])
    end.
Proof.
  unfold run, send_packet. cbn.
  destruct (build_and_serialize g p key) as [data|e]; cbn; [|reflexivity].
  now destruct (os _ (sendto sk data (host, port0)) []).
Qed.

Lemma build_and_serialize_bad_key (g p key : bytes) :
  List.length key <> 32 ->
  build_and_serialize g p key = Raise (data_crypto.key_length_error key).
Proof.
  intros Hk. unfold build_and_serialize.
  now rewrite build_packet_bad_key.
Qed.

(** X25. Under a key that is not 32 bytes long [send_packet] hands no
    datagram to the network and raises.  On an object that holds a
    socket it makes no call at all and raises the key-length
    [ValueError]; on an object without one the socket is made first, so
    where the calls succeed the key error is raised with the new socket
    stored in the object and not closed. *)
Theorem send_packet_bad_key
    (os : system) (has_reuseport : bool) (self : UDPSocket)
    (g p key : bytes) (host : string) (port0 : Z) :
  List.length key <> 32 ->
  let x := run os (send_packet has_reuseport g p key host port0) self in
  sent_datagrams (calls_of x) = []
  /\ (exists e, result_of x = Raises e)
  /\ (forall sk, socket self = Some sk ->
      x = (Raises (Builtin (data_crypto.key_length_error key)), self, []))
  /\ (socket self = None ->
      (forall R c log, exists r, os R c log = Returns r) ->
      result_of x = Raises (Builtin (data_crypto.key_length_error key))
      /\ closed_sockets (calls_of x) = []
      /\ exists sk, socket (self_after x) = Some sk).
Proof.
  intros Hk. destruct self as [pt [sk|]]; cbv zeta.
  - rewrite run_send_packet_socket, build_and_serialize_bad_key by assumption.
    cbn. repeat split; eauto; discriminate.
  - unfold run, send_packet, ensure_socket, create_socket,
      result_of, calls_of, self_after.
    rewrite build_and_serialize_bad_key by assumption.
    destruct has_reuseport; cbn; run_cases os;
      (split; [reflexivity|]); (split; [eauto|]);
      (split; [intros sk H; discriminate H|]);
      intros _ Hok;
      solve [never_raises Hok | repeat split; cbn; eauto].
Qed.

Lemma send_packet_bad_key_witness :
  run (delivering [] (""%string, 0%Z))
      (send_packet true (repeat x01 6) [x74] (repeat x00 31)
                   default_host default_port)
      (mkUDPSocket 0 (Some 3))
  = (Raises (Builtin (ValueError "Key must be 32 bytes, got 31")),
     mkUDPSocket 0 (Some 3), []).
Proof.
  assert (Hk : List.length (repeat x00 31) <> 32) by (simpl; lia).
  destruct (send_packet_bad_key
              (delivering [] (""%string, 0%Z)) true (mkUDPSocket 0 (Some 3))
              (repeat x01 6) [x74] (repeat x00 31)
              default_host default_port Hk) as (_ & _ & H & _).
  exact (H 3 eq_refl).
Defined.

(** X26. Sending and receiving compose.  When [send_packet] returns, it
    has handed exactly one datagram to [sendto], addressed to the given
    host and port, and the datagram is the result of
    [build_and_serialize]; and whenever [recvfrom] gives that datagram to
    [receive_packet] on an object that holds a socket, under the same
    key, [receive_packet] returns the padded identifier, the payload and
    the address the datagram came from. *)
Theorem send_then_receive
    (os : system) (has_reuseport : bool) (sender : UDPSocket)
    (g p key : bytes) (host : string) (port0 : Z) :
  result_of (run os (send_packet has_reuseport g p key host port0) sender)
  = Returns tt ->
  exists wire,
    build_and_serialize g p key = Ok wire
    /\ sent_datagrams
         (calls_of (run os (send_packet has_reuseport g p key host port0)
                        sender))
       = [(wire, (host, port0))]
    /\ forall (os' : system) (receiver : UDPSocket) (rk : socket_id)
              (addr : address) (bufsize : Z),
         socket receiver = Some rk ->
         os' _ (recvfrom rk bufsize) [] = Returns (wire, addr) ->
         result_of (run os' (receive_packet key bufsize) receiver)
         = Returns (guid_factory.pad_guid g, p, addr).
Proof.
  intros Hsend.
  assert (Hrecv : forall wire,
             build_and_serialize g p key = Ok wire ->
             forall (os' : system) (receiver : UDPSocket) (rk : socket_id)
                    (addr : address) (bufsize : Z),
               socket receiver = Some rk ->
               os' _ (recvfrom rk bufsize) [] = Returns (wire, addr) ->
               result_of (run os' (receive_packet key bufsize) receiver)
               = Returns (guid_factory.pad_guid g, p, addr)).
  { intros wire Hb os' [pt s] rk addr bufsize Hs Hr. cbn [socket] in Hs.
    subst s. rewrite run_receive_packet_socket. cbv zeta. rewrite Hr.
    destruct (parse_and_validate_built_wire g p key wire Hb)
      as (pk & Hpv & Hg & Hp).
    cbn [fst snd]. rewrite Hpv. unfold result_of. cbn [fst].
    now rewrite Hg, Hp. }
  destruct (build_and_serialize g p key) as [wire|e] eqn:Hb.
  - exists wire. split; [reflexivity|]. split; [|now apply Hrecv].
    clear Hrecv. revert Hsend. destruct sender as [pt [sk|]].
    + rewrite run_send_packet_socket, Hb. cbv zeta. intros _. reflexivity.
    + unfold run, send_packet, ensure_socket, create_socket,
        result_of, calls_of, self_after.
      rewrite Hb.
      destruct has_reuseport; cbn; run_cases os;
        intros H; try discriminate H; reflexivity.
  - exfalso. clear Hrecv. revert Hsend. destruct sender as [pt [sk|]].
    + rewrite run_send_packet_socket, Hb. discriminate.
    + unfold run, send_packet, ensure_socket, create_socket,
        result_of, calls_of, self_after.
      rewrite Hb.
      destruct has_reuseport; cbn; run_cases os; discriminate.
Qed.

Lemma send_then_receive_witness :
  exists wire,
    build_and_serialize
      (repeat x01 6) (ascii_bytes "test payload") (repeat x00 32)
    = Ok wire
    /\ sent_datagrams
         (calls_of (run (delivering [] (""%string, 0%Z))
                        (send_packet true (repeat x01 6)
                                     (ascii_bytes "test payload")
                                     (repeat x00 32)
                                     "127.0.0.1" 50011)
                        (init 0)))
       = [(wire, ("127.0.0.1"%string, 50011%Z))]
    /\ forall (os' : system) (receiver : UDPSocket) (rk : socket_id)
              (addr : address) (bufsize : Z),
         socket receiver = Some rk ->
         os' _ (recvfrom rk bufsize) [] = Returns (wire, addr) ->
         result_of (run os' (receive_packet (repeat x00 32) bufsize) receiver)
         = Returns (guid_factory.pad_guid (repeat x01 6),
                    ascii_bytes "test payload", addr).
Proof.
  apply send_then_receive. vm_compute. reflexivity.
Defined.

(** X27. [close] closes the stored socket once and forgets it: after a
    [close] that returned, [self.socket] is [None], the port is kept,
    and a further [close] makes no call and changes nothing.  When the
    call raises, the socket stays stored.  Without a socket [close]
    makes no call. *)
Theorem close_outcome (os : system) (self : UDPSocket) :
  let x := run os close self in
  match result_of x with
  | Returns _ =>
      self_after x = mkUDPSocket (port self) None
      /\ forall os' : system,
           run os' close (self_after x) = (Returns tt, self_after x, [])
  | Raises e => self_after x = self /\ socket self <> None
  end
  /\ (socket self = None -> calls_of x = [])
  /\ (forall sk, socket self = Some sk -> closed_sockets (calls_of x) = [sk]).
Proof.
  unfold run, close, result_of, calls_of, self_after.
  destruct self as [pt [sk|]]; cbn.
  - step_os os; repeat split; try discriminate;
      intros sk' H; injection H as <-; reflexivity.
  - repeat split. intros sk H. discriminate H.
Qed.

(** X28. [bind] binds to the wildcard address and the object's own port,
    and to nothing else: every address passed to [bind] in a run is
    [("0.0.0.0", self.port)].  When it returns, exactly one such call
    was made, the object holds a socket and its port is unchanged; on an
    object that already holds a socket that is the only call of the
    run. *)
Theorem bind_outcome
    (os : system) (has_reuseport : bool) (self : UDPSocket) :
  let x := run os (bind has_reuseport) self in
  (forall a, In a (bound_addresses (calls_of x)) ->
             a = ("0.0.0.0"%string, port self))
  /\ (result_of x = Returns tt ->
      bound_addresses (calls_of x) = [("0.0.0.0"%string, port self)]
      /\ port (self_after x) = port self
      /\ exists sk, socket (self_after x) = Some sk)
  /\ (forall sk, socket self = Some sk ->
      exists r, calls_of x
                = [Event _ (bind_to sk ("0.0.0.0"%string, port self)) r]
                /\ self_after x = self).
Proof.
  unfold run, bind, ensure_socket, create_socket,
    result_of, calls_of, self_after.
  destruct self as [pt [sk|]]; cbn.
  - step_os os; repeat split; eauto; try tauto;
      try (intros sk' H; injection H as <-; eauto);
      try (intros a [<-|[]]; reflexivity); discriminate.
  - destruct has_reuseport; cbn; run_cases os;
      repeat split; eauto; try tauto; try discriminate;
      try (intros a [<-|[]]; reflexivity).
Qed.

End UdpSocketCoverage.
